(** * Ultimate Tic-Tac-Toe rules engine ([board.py], class [Board])

    A shallow embedding of the [Board] class and the properties of its
    state machine: move legality, subgrid and overall win detection, the
    derivation of the next forced subgrid, and what a failed call leaves
    behind.

    Python integers are [Z]; [//] and [%] with a positive divisor are
    [Z.div] and [Z.modulo] (both round towards minus infinity).  The 9x9
    numpy array is a list of rows; the list [subgrid_wins] is a list of
    [Z]; [next_subgrid] is [None] or an integer.  Methods that mutate
    [self] or raise are functions in a small state-and-exception monad: a
    call returns its outcome together with the object as the call left
    it. *)

From Stdlib Require Import ZArith Bool Lia Ascii.
From stdpp Require Import base list numbers strings pretty.

Local Open Scope Z_scope.

(** ** Data model *)

(** [self.board]: rows of columns, [np.zeros((9, 9), dtype=int)]. *)
Abbreviation Grid := (list (list Z)).

Record Board := mkBoard {
  board : Grid;              (* self.board *)
  subgrid_wins : list Z;     (* self.subgrid_wins: 0 = not won, 1, 2 *)
  overall_winner : Z;        (* self.overall_winner: 0 = none, 1, 2 *)
  next_subgrid : option Z    (* self.next_subgrid: None = free move *)
}.

Definition with_board (g : Grid) (b : Board) : Board :=
  mkBoard g (subgrid_wins b) (overall_winner b) (next_subgrid b).
Definition with_subgrid_wins (w : list Z) (b : Board) : Board :=
  mkBoard (board b) w (overall_winner b) (next_subgrid b).
Definition with_overall_winner (p : Z) (b : Board) : Board :=
  mkBoard (board b) (subgrid_wins b) p (next_subgrid b).
Definition with_next_subgrid (n : option Z) (b : Board) : Board :=
  mkBoard (board b) (subgrid_wins b) (overall_winner b) n.

(** [Board.__init__] *)
Definition init : Board :=
  mkBoard (replicate 9 (replicate 9 0)) (replicate 9 0) 0 None.

(** The shape that numpy and [__init__] fix once and for all. *)
Definition wf_grid (g : Grid) : Prop :=
  length g = 9%nat ∧ Forall (λ row, length row = 9%nat) g.

Definition wf_board (b : Board) : Prop :=
  wf_grid (board b) ∧ length (subgrid_wins b) = 9%nat.

(** ** Exceptions and the method monad *)

(** Every [raise] of the class is a [ValueError]; the constructors tell the
    raise sites apart by what they report. *)
Inductive Error : Type :=
  | OutOfRange                 (* "Index must be between 0 and 80.",
                                  "Subgrid index must be between 0 and 8.",
                                  "Subgrid cell index must be between 0 and 8." *)
  | InvalidPlayer              (* "Cell value must be 0 (empty), 1 (Player 1), or 2 (Player 2)." *)
  | CellOccupiedOrWrongSubgrid (* "Invalid move: Cell ... is already occupied." *)
  | InvalidSubgridShape        (* "Subgrid must be a 3x3 numpy array" *)
  | BroadcastError             (* numpy: a 3x3 value assigned to a slice of another shape *)
  | IndexError                 (* numpy: index out of bounds for an axis, or not an index *)
  | OverflowError.             (* numpy: an integer index that does not fit the index type *)

Inductive Outcome (A : Type) : Type :=
  | Returns (a : A)
  | Raises (e : Error).
Arguments Returns {A} a.
Arguments Raises {A} e.

Definition M (A : Type) : Type := Board → Outcome A * Board.

#[global] Instance M_ret : MRet M := λ A a b, (Returns a, b).
#[global] Instance M_bind : MBind M := λ A B k m b,
  match m b with
  | (Returns a, b') => k a b'
  | (Raises e, b') => (Raises e, b')
  end.

Definition raise {A} (e : Error) : M A := λ b, (Raises e, b).
Definition modify (f : Board → Board) : M unit := λ b, (Returns tt, f b).

(** ** Indexing *)

(** [range(n)] *)
Definition range (n : nat) : list Z := Z.of_nat <$> seq 0 n.

(** [a[r, c]] for indices already inside the array. *)
Definition cell (g : Grid) (r c : Z) : Z :=
  default 0 (default [] (g !! Z.to_nat r) !! Z.to_nat c).

(** [self.board[row, col] = value] for indices inside the array. *)
Definition set_cell (g : Grid) (r c v : Z) : Grid :=
  alter (λ row, <[Z.to_nat c := v]> row) (Z.to_nat r) g.

(** [l[i]] on the list [subgrid_wins]. *)
Definition win_at (w : list Z) (i : Z) : Z := default 0 (w !! Z.to_nat i).

(** A Python integer used as an index.  One that fits the 64-bit index type
    is taken as it is.  One in [2^63, 2^64) is first read as an unsigned
    64-bit scalar and then fails to convert: [OverflowError].  Any other one
    is no integer index for numpy: [IndexError]. *)
Definition np_intp (i : Z) : Outcome Z :=
  if (- 2 ^ 63 <=? i) && (i <? 2 ^ 63) then Returns i
  else if (2 ^ 63 <=? i) && (i <? 2 ^ 64) then Raises OverflowError
  else Raises IndexError.

(** An index on an axis of length [n]: negative indices count from the
    end, anything else outside is an [IndexError]. *)
Definition np_index (n i : Z) : Outcome Z :=
  if (0 <=? i) && (i <? n) then Returns i
  else if (- n <=? i) && (i <? 0) then Returns (i + n)
  else Raises IndexError.

(** [a[row, col]] on the 9x9 array: both indices are converted, row first,
    before either is checked against its axis. *)
Definition board_item (g : Grid) (row col : Z) : Outcome Z :=
  match np_intp row with
  | Raises e => Raises e
  | Returns r =>
      match np_intp col with
      | Raises e => Raises e
      | Returns c =>
          match np_index 9 r with
          | Raises e => Raises e
          | Returns r' =>
              match np_index 9 c with
              | Raises e => Raises e
              | Returns c' => Returns (cell g r' c')
              end
          end
      end
  end.

(** What the array stores for an integer of another integer type: the
    value reduced to 64 bits, two's complement.  Values of [-2^63, 2^63)
    are stored as they are. *)
Definition int64_cast (z : Z) : Z := (z + 2 ^ 63) mod 2 ^ 64 - 2 ^ 63.

Definition cast_rows (a : Grid) : Grid :=
  (λ row : list Z, int64_cast <$> row) <$> a.

(** The values of the array itself ([dtype=int]). *)
Definition is_int64 (z : Z) : Prop := - 2 ^ 63 ≤ z < 2 ^ 63.

Definition int64_grid (g : Grid) : Prop := Forall (Forall is_int64) g.

(** The values an array of one of numpy's integer types can hold, from
    int8 to uint64. *)
Definition integer_array (a : Grid) : Prop :=
  Forall (Forall (λ z, - 2 ^ 63 ≤ z < 2 ^ 64)) a.

(** A bound of a slice [start:stop] on an axis of length [n]: negative
    bounds count from the end, and the result is clipped to [0, n]. *)
Definition slice_bound (n i : Z) : Z :=
  if i <? 0 then Z.max 0 (i + n) else Z.min i n.

Definition np_slice {A} (l : list A) (start stop : Z) : list A :=
  let n := Z.of_nat (length l) in
  let lo := slice_bound n start in
  let hi := slice_bound n stop in
  take (Z.to_nat (hi - lo)) (drop (Z.to_nat lo) l).

(** [index_to_position] *)
Definition index_to_position (index size : Z) : Z * Z :=
  (index / size, index mod size).

(** [get_subgrid]: [self.board[row_start:row_start + 3, col_start:col_start + 3]].
    The callers only read the view before the next write. *)
Definition get_subgrid (b : Board) (subgrid_index : Z) : Grid :=
  let row_start := (subgrid_index / 3) * 3 in
  let col_start := (subgrid_index mod 3) * 3 in
  (λ row, np_slice row col_start (col_start + 3))
    <$> np_slice (board b) row_start (row_start + 3).

(** ** The methods of [Board] *)

(** [set_subgrid]: the argument is a two-dimensional array of an integer
    type, given by its rows; its shape is (3, 3) when it has three rows of
    three.  The slice assignment converts its values to the type of the
    board. *)
Definition shape_is_3x3 (subgrid : Grid) : bool :=
  (length subgrid =? 3)%nat && forallb (λ row, (length row =? 3)%nat) subgrid.

Definition assign_cols (row : list Z) (c0 : nat) (vals : list Z) : list Z :=
  take c0 row ++ vals ++ drop (c0 + length vals) row.

Definition assign_block (g : Grid) (r0 c0 : nat) (blk : Grid) : Grid :=
  take r0 g
    ++ zip_with (λ row vals, assign_cols row c0 vals) (take (length blk) (drop r0 g)) blk
    ++ drop (r0 + length blk) g.

Definition set_subgrid (subgrid_index : Z) (subgrid : Grid) : M unit :=
  if negb (shape_is_3x3 subgrid) then raise InvalidSubgridShape
  else
    let row_start := (subgrid_index / 3) * 3 in
    let col_start := (subgrid_index mod 3) * 3 in
    let r_lo := slice_bound 9 row_start in
    let r_hi := slice_bound 9 (row_start + 3) in
    let c_lo := slice_bound 9 col_start in
    let c_hi := slice_bound 9 (col_start + 3) in
    if negb ((r_hi - r_lo =? 3) && (c_hi - c_lo =? 3)) then raise BroadcastError
    else modify (λ b,
      with_board
        (assign_block (board b) (Z.to_nat r_lo) (Z.to_nat c_lo) (cast_rows subgrid)) b).

(** [is_valid_move] *)
Definition is_valid_move (b : Board) (row col : Z) : Outcome bool :=
  let cell_is_empty :=
    match board_item (board b) row col with
    | Returns x => Returns (x =? 0)
    | Raises e => Raises e
    end in
  match next_subgrid b with
  | Some forced =>
      let subgrid_row := row / 3 in
      let subgrid_col := col / 3 in
      if negb (subgrid_row * 3 + subgrid_col =? forced) then Returns false
      else cell_is_empty
  | None => cell_is_empty
  end.

(** [all(a[r, c] == player for (r, c) in cells)] *)
Definition all_eq (g : Grid) (player : Z) (cells : list (Z * Z)) : bool :=
  forallb (λ rc, cell g rc.1 rc.2 =? player) cells.

Definition row_line (n : nat) (i : Z) : list (Z * Z) := (λ j, (i, j)) <$> range n.
Definition col_line (n : nat) (i : Z) : list (Z * Z) := (λ j, (j, i)) <$> range n.
Definition diag_line (n : nat) : list (Z * Z) := (λ i, (i, i)) <$> range n.
Definition anti_line (n : nat) : list (Z * Z) :=
  (λ i, (i, Z.of_nat n - 1 - i)) <$> range n.

(** The scan shared by [check_winner] (n = 9, on the board) and
    [check_subgrid_winner] (n = 3, on a subgrid): for each [i] the row then
    the column, then the main diagonal, then the anti-diagonal; [true] at
    the first line that is all [player]. *)
Definition has_line (n : nat) (g : Grid) (player : Z) : bool :=
  existsb (λ i, all_eq g player (row_line n i) || all_eq g player (col_line n i)) (range n)
  || all_eq g player (diag_line n)
  || all_eq g player (anti_line n).

(** [check_winner] *)
Definition check_winner (player : Z) : M bool := λ b,
  if has_line 9 (board b) player
  then (Returns true, with_overall_winner player b)
  else (Returns false, b).

(** [check_subgrid_winner]: [for player in [1, 2]], first hit writes
    [subgrid_wins[subgrid_index]] and returns.  Called with
    [subgrid_index] in [0, 9). *)
Definition check_subgrid_winner (subgrid_index : Z) : M (option Z) := λ b,
  let subgrid := get_subgrid b subgrid_index in
  match List.find (has_line 3 subgrid) [1; 2] with
  | Some player =>
      (Returns (Some player),
       with_subgrid_wins (<[Z.to_nat subgrid_index := player]> (subgrid_wins b)) b)
  | None => (Returns None, b)
  end.

(** [is_subgrid_full]: [np.all(subgrid != 0)] *)
Definition is_subgrid_full (b : Board) (subgrid_index : Z) : bool :=
  forallb (forallb (λ x, negb (x =? 0))) (get_subgrid b subgrid_index).

(** [update_next_subgrid] *)
Definition update_next_subgrid (row col : Z) : M unit := λ b,
  let next := (row mod 3) * 3 + (col mod 3) in
  if is_subgrid_full b next || negb (win_at (subgrid_wins b) next =? 0)
  then (Returns tt, with_next_subgrid None b)
  else (Returns tt, with_next_subgrid (Some next) b).

(** [value not in (0, 1, 2)] *)
Definition value_ok (value : Z) : bool :=
  (value =? 0) || (value =? 1) || (value =? 2).

(** [if not self.is_valid_move(row, col): raise ValueError(...)] *)
Definition require_valid_move (row col : Z) : M unit := λ b,
  match is_valid_move b row col with
  | Returns true => (Returns tt, b)
  | Returns false => (Raises CellOccupiedOrWrongSubgrid, b)
  | Raises e => (Raises e, b)
  end.

(** [update_cell] *)
Definition update_cell (index value : Z) : M unit :=
  if negb ((0 <=? index) && (index <? 81)) then raise OutOfRange
  else if negb (value_ok value) then raise InvalidPlayer
  else
    let '(row, col) := index_to_position index 9 in
    require_valid_move row col;;
    modify (λ b, with_board (set_cell (board b) row col value) b);;
    let subgrid_index := (row / 3) * 3 + (col / 3) in
    check_subgrid_winner subgrid_index;;
    update_next_subgrid row col;;
    check_winner value;;
    mret tt.

(** [update_cell_in_subgrid] *)
Definition update_cell_in_subgrid (subgrid_index subgrid_index_flat value : Z) : M unit :=
  if negb ((0 <=? subgrid_index) && (subgrid_index <? 9)) then raise OutOfRange
  else if negb ((0 <=? subgrid_index_flat) && (subgrid_index_flat <? 9)) then raise OutOfRange
  else if negb (value_ok value) then raise InvalidPlayer
  else
    let '(local_row, local_col) := index_to_position subgrid_index_flat 3 in
    let global_row := (subgrid_index / 3) * 3 + local_row in
    let global_col := (subgrid_index mod 3) * 3 + local_col in
    require_valid_move global_row global_col;;
    modify (λ b, with_board (set_cell (board b) global_row global_col value) b);;
    check_subgrid_winner subgrid_index;;
    update_next_subgrid global_row global_col;;
    check_winner value;;
    mret tt.

(** ** Runs of the state machine *)

(** A call to one of the two update methods. *)
Inductive Call : Type :=
  | UpdateCell (index value : Z)
  | UpdateCellInSubgrid (subgrid_index subgrid_index_flat value : Z).

Definition call (c : Call) : M unit :=
  match c with
  | UpdateCell index value => update_cell index value
  | UpdateCellInSubgrid s f value => update_cell_in_subgrid s f value
  end.

(** The boards that successful calls to the update methods produce from a
    fresh [Board()].  The class keeps no turn order: any accepted value may
    follow any other. *)
Inductive reachable : Board → Prop :=
  | reachable_init : reachable init
  | reachable_call b c b' :
      reachable b → call c b = (Returns tt, b') → reachable b'.

(** A script of calls, stopped by the first exception. *)
Fixpoint play (calls : list Call) (b : Board) : option Board :=
  match calls with
  | [] => Some b
  | c :: rest =>
      match call c b with
      | (Returns _, b') => play rest b'
      | (Raises _, _) => None
      end
  end.

(** The flat index of a board position. *)
Definition flat (row col : Z) : Z := row * 9 + col.

(** ** What a successful update does *)

(** The state after the four steps that follow the guards. *)
Definition after_move (row col value subgrid_index : Z) (b : Board) : Board :=
  let b1 := with_board (set_cell (board b) row col value) b in
  let b2 := (check_subgrid_winner subgrid_index b1).2 in
  let b3 := (update_next_subgrid row col b2).2 in
  (check_winner value b3).2.

Definition guarded_move (row col value subgrid_index : Z) (b : Board)
  : Outcome unit * Board :=
  match is_valid_move b row col with
  | Returns true => (Returns tt, after_move row col value subgrid_index b)
  | Returns false => (Raises CellOccupiedOrWrongSubgrid, b)
  | Raises e => (Raises e, b)
  end.


(** ** The overall win pattern of the specification *)

(** The overall win pattern in the words of the specification: one of the
    9 rows, one of the 9 columns, the main diagonal or the anti-diagonal of
    the 9x9 grid holds the player's mark in all of its 9 cells. *)
Definition overall_win_on_cells (g : Grid) (player : Z) : Prop :=
  (∃ r, 0 ≤ r < 9 ∧ ∀ c, 0 ≤ c < 9 → cell g r c = player)
  ∨ (∃ c, 0 ≤ c < 9 ∧ ∀ r, 0 ≤ r < 9 → cell g r c = player)
  ∨ (∀ i, 0 ≤ i < 9 → cell g i i = player)
  ∨ (∀ i, 0 ≤ i < 9 → cell g i (8 - i) = player).

(** ** Readings of the specification that the code does not follow *)

(** "Calling [update_cell] with the value 0 fails with InvalidPlayer." *)
Definition empty_value_rejected : Prop :=
  ∀ (b : Board) (index : Z),
    0 ≤ index < 81 → (update_cell index 0 b).1 = Raises InvalidPlayer.

(** "[set_subgrid] overwrites the 9 cells of the subgrid with the values
    in the argument, whatever those values are." *)
Definition set_subgrid_stores_values : Prop :=
  ∀ (b : Board) (s : Z) (g : Grid),
    wf_grid (board b) → 0 ≤ s < 9 → shape_is_3x3 g = true → integer_array g →
    ∃ b', set_subgrid s g b = (Returns tt, b') ∧ get_subgrid b' s = g.

(** "Once a subgrid is won by a player, no further successful update
    changes its status." *)
Definition subgrid_status_write_once : Prop :=
  ∀ (b b' : Board) (c : Call) (s p : Z),
    reachable b → 0 ≤ s < 9 → p = 1 ∨ p = 2 →
    win_at (subgrid_wins b) s = p →
    call c b = (Returns tt, b') →
    win_at (subgrid_wins b') s = p.

(** "Once the overall winner is set, no later update clears it or
    overwrites it with the other player." *)
Definition overall_winner_write_once : Prop :=
  ∀ (b b' : Board) (c : Call) (p : Z),
    reachable b → p = 1 ∨ p = 2 →
    overall_winner b = p →
    call c b = (Returns tt, b') →
    overall_winner b' = p.

(** ** Invariants of the reachable boards *)

(** What [check_subgrid_winner] would find on a subgrid: the first of 1, 2
    with a line, 0 when neither has one. *)
Definition scan_subgrid (subgrid : Grid) : Z :=
  match List.find (has_line 3 subgrid) [1; 2] with
  | Some player => player
  | None => 0
  end.

(** The recorded statuses are what a scan of each subgrid finds. *)
Definition statuses_follow_grid (b : Board) : Prop :=
  ∀ s, 0 ≤ s < 9 → win_at (subgrid_wins b) s = scan_subgrid (get_subgrid b s).

Definition call_value (c : Call) : Z :=
  match c with
  | UpdateCell _ value => value
  | UpdateCellInSubgrid _ _ value => value
  end.

(** ** Two games *)

(** Alternating play, given as (subgrid, cell in the subgrid): player 2
    takes the bottom row of subgrid 0, then player 1 is two cells into its
    top row. *)
Definition game_subgrid0 : list Call :=
  [ UpdateCellInSubgrid 4 0 1; UpdateCellInSubgrid 0 6 2;
    UpdateCellInSubgrid 6 0 1; UpdateCellInSubgrid 0 7 2;
    UpdateCellInSubgrid 7 0 1; UpdateCellInSubgrid 0 8 2;
    UpdateCellInSubgrid 8 0 1; UpdateCellInSubgrid 1 0 2;
    UpdateCellInSubgrid 0 0 1; UpdateCellInSubgrid 2 0 2;
    UpdateCellInSubgrid 0 1 1; UpdateCellInSubgrid 1 3 2;
    UpdateCellInSubgrid 3 5 1; UpdateCellInSubgrid 5 0 2 ].

Definition board_subgrid0 : Board :=
  mkBoard
    [ [1; 1; 0;  2; 0; 0;  2; 0; 0];
      [0; 0; 0;  2; 0; 0;  0; 0; 0];
      [2; 2; 2;  0; 0; 0;  0; 0; 0];
      [0; 0; 0;  1; 0; 0;  2; 0; 0];
      [0; 0; 1;  0; 0; 0;  0; 0; 0];
      [0; 0; 0;  0; 0; 0;  0; 0; 0];
      [1; 0; 0;  1; 0; 0;  1; 0; 0];
      [0; 0; 0;  0; 0; 0;  0; 0; 0];
      [0; 0; 0;  0; 0; 0;  0; 0; 0] ]
    [2; 0; 0; 0; 0; 0; 0; 0; 0] 0 None.

(** Alternating play, given as (row, column): player 1 fills row 1, and
    player 2 is one cell short of row 3. *)
Definition game_two_rows : list Call :=
  [ UpdateCell (flat 4 5) 1; UpdateCell (flat 3 6) 2;
    UpdateCell (flat 1 1) 1; UpdateCell (flat 3 4) 2;
    UpdateCell (flat 1 5) 1; UpdateCell (flat 3 7) 2;
    UpdateCell (flat 1 3) 1; UpdateCell (flat 5 0) 2;
    UpdateCell (flat 8 2) 1; UpdateCell (flat 6 7) 2;
    UpdateCell (flat 1 4) 1; UpdateCell (flat 5 5) 2;
    UpdateCell (flat 6 8) 1; UpdateCell (flat 0 7) 2;
    UpdateCell (flat 4 1) 1; UpdateCell (flat 3 3) 2;
    UpdateCell (flat 1 2) 1; UpdateCell (flat 3 8) 2;
    UpdateCell (flat 1 6) 1; UpdateCell (flat 3 0) 2;
    UpdateCell (flat 1 0) 1; UpdateCell (flat 3 2) 2;
    UpdateCell (flat 1 7) 1; UpdateCell (flat 3 5) 2;
    UpdateCell (flat 1 8) 1; UpdateCell (flat 0 0) 2;
    UpdateCell (flat 4 0) 1 ].

Definition board_two_rows : Board :=
  mkBoard
    [ [2; 0; 0;  0; 0; 0;  0; 2; 0];
      [1; 1; 1;  1; 1; 1;  1; 1; 1];
      [0; 0; 0;  0; 0; 0;  0; 0; 0];
      [2; 0; 2;  2; 2; 2;  2; 2; 2];
      [1; 1; 0;  0; 0; 1;  0; 0; 0];
      [2; 0; 0;  0; 0; 2;  0; 0; 0];
      [0; 0; 0;  0; 0; 0;  0; 2; 1];
      [0; 0; 0;  0; 0; 0;  0; 0; 0];
      [0; 0; 1;  0; 0; 0;  0; 0; 0] ]
    [1; 1; 1; 0; 2; 2; 0; 0; 0] 1 (Some 3).

(** Alternating play that leaves player 1 one cell, (4, 4), short of
    row 4. *)
Definition game_row4 : list Call :=
  [ UpdateCell (flat 4 6) 1; UpdateCell (flat 5 0) 2;
    UpdateCell (flat 6 2) 1; UpdateCell (flat 1 8) 2;
    UpdateCell (flat 4 7) 1; UpdateCell (flat 5 5) 2;
    UpdateCell (flat 6 6) 1; UpdateCell (flat 1 2) 2;
    UpdateCell (flat 4 8) 1; UpdateCell (flat 1 6) 2;
    UpdateCell (flat 4 1) 1; UpdateCell (flat 5 3) 2;
    UpdateCell (flat 7 2) 1; UpdateCell (flat 7 0) 2;
    UpdateCell (flat 4 2) 1; UpdateCell (flat 7 6) 2;
    UpdateCell (flat 4 0) 1; UpdateCell (flat 7 7) 2;
    UpdateCell (flat 4 5) 1; UpdateCell (flat 1 3) 2;
    UpdateCell (flat 4 3) 1; UpdateCell (flat 7 3) 2 ].

Definition board_row4 : Board :=
  mkBoard
    [ [0; 0; 0;  0; 0; 0;  0; 0; 0];
      [0; 0; 2;  2; 0; 0;  2; 0; 2];
      [0; 0; 0;  0; 0; 0;  0; 0; 0];
      [0; 0; 0;  0; 0; 0;  0; 0; 0];
      [1; 1; 1;  1; 0; 1;  1; 1; 1];
      [2; 0; 0;  2; 0; 2;  0; 0; 0];
      [0; 0; 1;  0; 0; 0;  1; 0; 0];
      [2; 0; 1;  2; 0; 0;  2; 2; 0];
      [0; 0; 0;  0; 0; 0;  0; 0; 0] ]
    [0; 0; 0; 1; 0; 1; 0; 0; 0] 0 None.

(** Alternating play that fills subgrid 4 without a line for either player
    and sends the next move to subgrid 0. *)
Definition game_full_subgrid : list Call :=
  [ UpdateCell (flat 4 3) 1; UpdateCell (flat 4 1) 2;
    UpdateCell (flat 5 3) 1; UpdateCell (flat 7 1) 2;
    UpdateCell (flat 5 5) 1; UpdateCell (flat 7 7) 2;
    UpdateCell (flat 3 4) 1; UpdateCell (flat 1 4) 2;
    UpdateCell (flat 4 4) 1; UpdateCell (flat 3 5) 2;
    UpdateCell (flat 1 7) 1; UpdateCell (flat 5 4) 2;
    UpdateCell (flat 7 4) 1; UpdateCell (flat 4 5) 2;
    UpdateCell (flat 4 7) 1; UpdateCell (flat 3 3) 2 ].

Definition board_full_subgrid : Board :=
  mkBoard
    [ [0; 0; 0;  0; 0; 0;  0; 0; 0];
      [0; 0; 0;  0; 2; 0;  0; 1; 0];
      [0; 0; 0;  0; 0; 0;  0; 0; 0];
      [0; 0; 0;  2; 1; 2;  0; 0; 0];
      [0; 2; 0;  1; 1; 2;  0; 1; 0];
      [0; 0; 0;  1; 2; 1;  0; 0; 0];
      [0; 0; 0;  0; 0; 0;  0; 0; 0];
      [0; 2; 0;  0; 1; 0;  0; 2; 0];
      [0; 0; 0;  0; 0; 0;  0; 0; 0] ]
    [0; 0; 0; 0; 0; 0; 0; 0; 0] 0 (Some 0).

(** A 3x3 array of zeros. *)
Definition empty_subgrid : Grid := replicate 3 (replicate 3 0).

(** A 3x3 array of unsigned 64-bit integers with 2^63 in its corner. *)
Definition uint64_subgrid : Grid := [[2 ^ 63; 0; 0]; [0; 1; 0]; [0; 0; 2]].

(** ** Subgrids seen on the board *)

(** Cell (i, j) of subgrid [s], addressed on the 9x9 grid. *)
Definition subgrid_cell (g : Grid) (s i j : Z) : Z :=
  cell g (s / 3 * 3 + i) (s mod 3 * 3 + j).

(** One of the 3 rows, 3 columns or 2 diagonals of subgrid [s] is entirely
    [player]. *)
Definition subgrid_has_line (g : Grid) (s player : Z) : Prop :=
  (∃ i, 0 ≤ i < 3 ∧ ∀ j, 0 ≤ j < 3 → subgrid_cell g s i j = player)
  ∨ (∃ j, 0 ≤ j < 3 ∧ ∀ i, 0 ≤ i < 3 → subgrid_cell g s i j = player)
  ∨ (∀ i, 0 ≤ i < 3 → subgrid_cell g s i i = player)
  ∨ (∀ i, 0 ≤ i < 3 → subgrid_cell g s i (2 - i) = player).

(** The values a board built by the update methods holds. *)
Definition is_mark (x : Z) : Prop := x = 0 ∨ x = 1 ∨ x = 2.

Definition values_in_range (b : Board) : Prop :=
  (∀ row col, 0 ≤ row < 9 → 0 ≤ col < 9 → is_mark (cell (board b) row col))
  ∧ (∀ s, 0 ≤ s < 9 → is_mark (win_at (subgrid_wins b) s))
  ∧ is_mark (overall_winner b)
  ∧ (∀ n, next_subgrid b = Some n → 0 ≤ n < 9).

(** ** Counting marks *)

(** The number of non-empty cells of a grid. *)
Definition marks (g : Grid) : nat := length (filter (λ x, x ≠ 0) (concat g)).

(** A 3x3 array full of one value. *)
Definition full_subgrid (v : Z) : Grid := replicate 3 (replicate 3 v).

(** ** Text output *)

(** What a method prints: the arguments of its successive [print] calls.
    [str] of an integer is its decimal notation, [pretty]. *)
Abbreviation Printed := (list string).

Definition newline : string := String (Ascii.ascii_of_nat 10) "".

(** [sep.join(items)] *)
Fixpoint join (sep : string) (items : list string) : string :=
  match items with
  | [] => ""
  | x :: rest =>
      match rest with
      | [] => x
      | _ :: _ => x +:+ sep +:+ join sep rest
      end
  end.

(** [s * n] *)
Fixpoint repeat_string (s : string) (n : nat) : string :=
  match n with
  | O => ""
  | S n' => s +:+ repeat_string s n'
  end.

(** [display_winners] *)
Definition subgrid_report (i : nat) (winner : Z) : string :=
  if winner =? 0
  then "Subgrid " +:+ pretty (Z.of_nat i) +:+ ": No winner"
  else "Subgrid " +:+ pretty (Z.of_nat i) +:+ ": Player " +:+ pretty winner +:+ " wins".

Definition overall_report (winner : Z) : string :=
  if negb (winner =? 0)
  then newline +:+ "Overall Winner: Player " +:+ pretty winner
  else newline +:+ "Overall Winner: None".

Definition display_winners (b : Board) : Printed :=
  ["Subgrid Winners:"]
    ++ imap subgrid_report (subgrid_wins b)
    ++ [overall_report (overall_winner b)].

(** [print_board]: the text of one grid row, built group by group. *)
Definition row_display (cells : list Z) : string :=
  foldl (λ acc j, acc +:+ (join " " (pretty <$> np_slice cells (j * 3) (j * 3 + 3)) +:+ " | "))
    "" (range 3).

Definition print_board (b : Board) : Printed :=
  ("Ultimate Tic-Tac-Toe Board (9x9):" +:+ newline)
    :: (range 3 ≫= λ i,
          ((λ row, row_display (default [] (board b !! Z.to_nat (i * 3 + row)))) <$> range 3)
            ++ [repeat_string "-" 20]).

(** A string without the space character. *)
Fixpoint no_space (s : string) : Prop :=
  match s with
  | EmptyString => True
  | String c rest => c ≠ " "%char ∧ no_space rest
  end.

(** ** Proof automation *)

(** Case analysis on an index known to lie in [0, 9). *)
Ltac enum9 x H :=
  let E := fresh in
  assert (E : x = 0 ∨ x = 1 ∨ x = 2 ∨ x = 3 ∨ x = 4 ∨ x = 5 ∨ x = 6 ∨ x = 7 ∨ x = 8)
    by lia;
  clear H; repeat (destruct E as [E|E]); subst x.

(** A list of known length as its elements; a 9x9 grid as its 81 cells. *)
Ltac list_of_length l H :=
  repeat (destruct l as [|? l]; [discriminate H|]; cbn [length] in H; injection H as H);
  destruct l; [clear H | discriminate H].

Ltac explode_grid g H :=
  let Hlen := fresh in let Hrows := fresh in
  destruct H as [Hlen Hrows];
  list_of_length g Hlen;
  repeat match goal with
         | F : Forall _ (_ :: _) |- _ =>
             let E := fresh in
             pose proof (Forall_inv F) as E; cbn beta in E; apply Forall_inv_tail in F
         end;
  clear Hrows;
  repeat match goal with
         | E : length ?row = 9%nat |- _ => list_of_length row E
         end.

(** * Properties *)

(** ** The update methods, step by step *)

Lemma move_steps row col value si b :
  (require_valid_move row col;;
   modify (λ b, with_board (set_cell (board b) row col value) b);;
   check_subgrid_winner si;;
   update_next_subgrid row col;;
   check_winner value;;
   mret tt) b = guarded_move row col value si b.
Proof.
  unfold guarded_move, after_move, mbind, M_bind, require_valid_move, modify, mret, M_ret.
  destruct (is_valid_move b row col) as [[|]|e]; try reflexivity.
  set (b1 := with_board _ b).
  unfold check_subgrid_winner at 1 2.
  destruct (List.find _ _); cbn [snd];
    unfold update_next_subgrid at 1 2;
    match goal with |- context [if ?c then _ else _] => destruct c end; cbn [snd];
    unfold check_winner;
    match goal with |- context [if ?c then _ else _] => destruct c end; reflexivity.
Qed.

Lemma update_cell_unfold index value b :
  update_cell index value b =
    if negb ((0 <=? index) && (index <? 81)) then (Raises OutOfRange, b)
    else if negb (value_ok value) then (Raises InvalidPlayer, b)
    else guarded_move (index / 9) (index mod 9) value
           ((index / 9) / 3 * 3 + (index mod 9) / 3) b.
Proof.
  unfold update_cell.
  destruct (negb _); [reflexivity|].
  destruct (negb _); [reflexivity|].
  cbn [index_to_position]. apply move_steps.
Qed.

Lemma update_cell_in_subgrid_unfold s f value b :
  update_cell_in_subgrid s f value b =
    if negb ((0 <=? s) && (s <? 9)) then (Raises OutOfRange, b)
    else if negb ((0 <=? f) && (f <? 9)) then (Raises OutOfRange, b)
    else if negb (value_ok value) then (Raises InvalidPlayer, b)
    else guarded_move (s / 3 * 3 + f / 3) (s mod 3 * 3 + f mod 3) value s b.
Proof.
  unfold update_cell_in_subgrid.
  destruct (negb _); [reflexivity|].
  destruct (negb _); [reflexivity|].
  destruct (negb _); [reflexivity|].
  cbn [index_to_position]. apply move_steps.
Qed.

Lemma guarded_move_raises row col value si b e b' :
  guarded_move row col value si b = (Raises e, b') → b' = b.
Proof.
  unfold guarded_move.
  destruct (is_valid_move b row col) as [[|]|]; intros [= ]; congruence.
Qed.

Lemma guarded_move_returns row col value si b b' :
  guarded_move row col value si b = (Returns tt, b') →
  is_valid_move b row col = Returns true ∧ b' = after_move row col value si b.
Proof.
  unfold guarded_move.
  destruct (is_valid_move b row col) as [[|]|]; intros [= ]; auto.
Qed.

Lemma update_cell_returns index value b b' :
  update_cell index value b = (Returns tt, b') →
  0 ≤ index < 81 ∧ value_ok value = true
  ∧ is_valid_move b (index / 9) (index mod 9) = Returns true
  ∧ b' = after_move (index / 9) (index mod 9) value
           ((index / 9) / 3 * 3 + (index mod 9) / 3) b.
Proof.
  rewrite update_cell_unfold.
  destruct ((0 <=? index) && (index <? 81)) eqn:Hi; cbn [negb]; [|discriminate].
  destruct (value_ok value) eqn:Hv; cbn [negb]; [|discriminate].
  intros [? ?]%guarded_move_returns. repeat split; auto; lia.
Qed.

Lemma update_cell_in_subgrid_returns s f value b b' :
  update_cell_in_subgrid s f value b = (Returns tt, b') →
  0 ≤ s < 9 ∧ 0 ≤ f < 9 ∧ value_ok value = true
  ∧ is_valid_move b (s / 3 * 3 + f / 3) (s mod 3 * 3 + f mod 3) = Returns true
  ∧ b' = after_move (s / 3 * 3 + f / 3) (s mod 3 * 3 + f mod 3) value s b.
Proof.
  rewrite update_cell_in_subgrid_unfold.
  destruct ((0 <=? s) && (s <? 9)) eqn:Hs; cbn [negb]; [|discriminate].
  destruct ((0 <=? f) && (f <? 9)) eqn:Hf; cbn [negb]; [|discriminate].
  destruct (value_ok value) eqn:Hv; cbn [negb]; [|discriminate].
  intros [? ?]%guarded_move_returns. repeat split; auto; lia.
Qed.

Lemma value_ok_spec value :
  value_ok value = true ↔ value = 0 ∨ value = 1 ∨ value = 2.
Proof. unfold value_ok. rewrite !orb_true_iff, !Z.eqb_eq. tauto. Qed.

Lemma np_index_in_range n i : 0 ≤ i < n → np_index n i = Returns i.
Proof.
  intros H. unfold np_index.
  destruct (0 <=? i) eqn:E1; [|lia]. destruct (i <? n) eqn:E2; [|lia]. reflexivity.
Qed.

Lemma np_intp_int64 i : - 2 ^ 63 ≤ i < 2 ^ 63 → np_intp i = Returns i.
Proof.
  intros H. unfold np_intp.
  destruct (Z.leb_spec (- 2 ^ 63) i); [|lia]. destruct (Z.ltb_spec i (2 ^ 63)); [|lia].
  reflexivity.
Qed.

Lemma board_item_in_range g row col :
  0 ≤ row < 9 → 0 ≤ col < 9 → board_item g row col = Returns (cell g row col).
Proof.
  intros Hr Hc. unfold board_item.
  rewrite !np_intp_int64 by lia. by rewrite !np_index_in_range by lia.
Qed.

Lemma board_item_raises g row col e :
  board_item g row col = Raises e → e = IndexError ∨ e = OverflowError.
Proof.
  unfold board_item, np_intp, np_index.
  repeat match goal with
         | |- context [if ?c then _ else _] => destruct c
         end; intros [= ]; auto.
Qed.

Lemma reachable_play calls : ∀ b b', reachable b → play calls b = Some b' → reachable b'.
Proof.
  induction calls as [|c rest IH]; intros b b' Hb; cbn.
  - intros [= <-]. exact Hb.
  - destruct (call c b) as [[[]|e] b1] eqn:Hc; [|discriminate].
    intros Hp. eapply IH; [|exact Hp]. eapply reachable_call; eauto.
Qed.

Lemma is_valid_move_raises b row col e :
  is_valid_move b row col = Raises e → e = IndexError ∨ e = OverflowError.
Proof.
  unfold is_valid_move.
  destruct (next_subgrid b); [destruct (negb _); [discriminate|]|];
    destruct (board_item (board b) row col) as [x|e'] eqn:E; intros [= ]; subst;
    by eapply board_item_raises.
Qed.

Lemma is_valid_move_in_range b row col :
  0 ≤ row < 9 → 0 ≤ col < 9 →
  is_valid_move b row col =
    Returns (match next_subgrid b with
             | Some forced => (row / 3 * 3 + col / 3 =? forced) && (cell (board b) row col =? 0)
             | None => cell (board b) row col =? 0
             end).
Proof.
  intros Hr Hc. unfold is_valid_move.
  rewrite board_item_in_range by lia.
  destruct (next_subgrid b); [|reflexivity].
  destruct (_ =? z); reflexivity.
Qed.

Lemma index_row_col index : 0 ≤ index < 81 → 0 ≤ index / 9 < 9 ∧ 0 ≤ index mod 9 < 9.
Proof.
  intros H. split; [|apply Z.mod_pos_bound; lia].
  split; [apply Z.div_pos; lia | apply Z.div_lt_upper_bound; lia].
Qed.

Lemma flat_row_col row col :
  0 ≤ col < 9 → flat row col / 9 = row ∧ flat row col mod 9 = col.
Proof.
  intros H. unfold flat. split.
  - rewrite Z.add_comm, Z.div_add by lia. rewrite Z.div_small by lia. lia.
  - rewrite Z.add_comm, Z.mod_add by lia. apply Z.mod_small; lia.
Qed.

(** ** Frame lemmas for the four steps *)

Lemma get_subgrid_ext b b' s : board b = board b' → get_subgrid b s = get_subgrid b' s.
Proof. unfold get_subgrid. intros ->. reflexivity. Qed.

Lemma is_subgrid_full_ext b b' s :
  board b = board b' → is_subgrid_full b s = is_subgrid_full b' s.
Proof. unfold is_subgrid_full. intros H. rewrite (get_subgrid_ext _ _ _ H). reflexivity. Qed.

Lemma check_winner_frame player b :
  board (check_winner player b).2 = board b
  ∧ subgrid_wins (check_winner player b).2 = subgrid_wins b
  ∧ next_subgrid (check_winner player b).2 = next_subgrid b.
Proof. unfold check_winner. destruct (has_line _ _ _); auto. Qed.

Lemma check_winner_overall player b :
  overall_winner (check_winner player b).2 =
    if has_line 9 (board b) player then player else overall_winner b.
Proof. unfold check_winner. destruct (has_line _ _ _); reflexivity. Qed.

Lemma update_next_subgrid_frame row col b :
  board (update_next_subgrid row col b).2 = board b
  ∧ subgrid_wins (update_next_subgrid row col b).2 = subgrid_wins b
  ∧ overall_winner (update_next_subgrid row col b).2 = overall_winner b.
Proof. unfold update_next_subgrid. destruct (_ || _); auto. Qed.

Lemma update_next_subgrid_next row col b :
  next_subgrid (update_next_subgrid row col b).2 =
    let next := (row mod 3) * 3 + (col mod 3) in
    if is_subgrid_full b next || negb (win_at (subgrid_wins b) next =? 0)
    then None else Some next.
Proof. unfold update_next_subgrid. cbn zeta. destruct (_ || _); reflexivity. Qed.

Lemma check_subgrid_winner_frame s b :
  board (check_subgrid_winner s b).2 = board b
  ∧ overall_winner (check_subgrid_winner s b).2 = overall_winner b
  ∧ next_subgrid (check_subgrid_winner s b).2 = next_subgrid b.
Proof. unfold check_subgrid_winner. destruct (List.find _ _); auto. Qed.

Lemma after_move_board row col value s b :
  board (after_move row col value s b) = set_cell (board b) row col value.
Proof.
  unfold after_move. cbn zeta.
  rewrite (proj1 (check_winner_frame _ _)), (proj1 (update_next_subgrid_frame _ _ _)),
    (proj1 (check_subgrid_winner_frame _ _)). reflexivity.
Qed.

Lemma after_move_next row col value s b :
  let b' := after_move row col value s b in
  let next := (row mod 3) * 3 + (col mod 3) in
  next_subgrid b' =
    if is_subgrid_full b' next || negb (win_at (subgrid_wins b') next =? 0)
    then None else Some next.
Proof.
  cbn zeta. unfold after_move. cbn zeta.
  set (b2 := (check_subgrid_winner s _).2).
  destruct (check_winner_frame value (update_next_subgrid row col b2).2) as (Hb & Hw & Hn).
  destruct (update_next_subgrid_frame row col b2) as (Hb' & Hw' & _).
  rewrite Hn, Hw, Hw', update_next_subgrid_next. cbn zeta.
  rewrite (is_subgrid_full_ext (check_winner value (update_next_subgrid row col b2).2).2 b2)
    by congruence.
  reflexivity.
Qed.

(** ** Error handling *)

(** C2, as the code has it: on an in-range index [update_cell] raises the
    cell-value error exactly when the value is none of 0, 1 and 2; the value
    0 (Empty) passes the guard like the two player values. *)
Theorem invalid_player_iff (b : Board) (index value : Z) :
  0 ≤ index < 81 →
  (update_cell index value b).1 = Raises InvalidPlayer
  ↔ ¬ (value = 0 ∨ value = 1 ∨ value = 2).
Proof.
  intros Hi. rewrite update_cell_unfold.
  destruct ((0 <=? index) && (index <? 81)) eqn:E; [|lia]. cbn [negb].
  rewrite <- value_ok_spec.
  destruct (value_ok value); cbn [negb fst].
  - split; [|intros []; reflexivity].
    unfold guarded_move.
    destruct (is_valid_move _ _ _) as [[|]|e] eqn:Hv; cbn; try discriminate.
    apply is_valid_move_raises in Hv. destruct Hv; subst e; discriminate.
  - split; [discriminate | reflexivity].
Qed.

Lemma invalid_player_iff_witness :
  0 ≤ 40 < 81
  ∧ ((update_cell 40 3 init).1 = Raises InvalidPlayer ↔ ¬ (3 = 0 ∨ 3 = 1 ∨ 3 = 2)).
Proof. split; [lia | apply (invalid_player_iff init 40 3); lia]. Defined.

(** C2, as stated, fails: on a fresh board [update_cell(0, 0)] returns
    normally (and moves the constraint to subgrid 0). *)
Lemma empty_value_accepted :
  update_cell 0 0 init = (Returns tt, with_next_subgrid (Some 0) init)
  ∧ ¬ empty_value_rejected.
Proof.
  assert (H : update_cell 0 0 init = (Returns tt, with_next_subgrid (Some 0) init))
    by (vm_compute; reflexivity).
  split; [exact H|].
  intros Hc. specialize (Hc init 0 ltac:(lia)). rewrite H in Hc. discriminate.
Qed.

(** C5: a call to [update_cell] or [update_cell_in_subgrid] that raises
    leaves the whole object (cells, subgrid statuses, overall winner, next
    constraint) as it was before the call. *)
Theorem failed_call_is_atomic (c : Call) (b : Board) (e : Error) :
  (call c b).1 = Raises e → (call c b).2 = b.
Proof.
  destruct c as [index value|s f value]; cbn [call].
  - rewrite update_cell_unfold.
    destruct (negb _); [reflexivity|]. destruct (negb _); [reflexivity|].
    destruct (guarded_move _ _ _ _ _) as [o b'] eqn:Hg. cbn. intros ->.
    eapply guarded_move_raises; eauto.
  - rewrite update_cell_in_subgrid_unfold.
    destruct (negb _); [reflexivity|]. destruct (negb _); [reflexivity|].
    destruct (negb _); [reflexivity|].
    destruct (guarded_move _ _ _ _ _) as [o b'] eqn:Hg. cbn. intros ->.
    eapply guarded_move_raises; eauto.
Qed.

(** ** Legality *)

(** C6: on a position of the board [is_valid_move] returns a boolean, and
    it is [True] exactly when the cell is empty and the constraint is
    either absent or names the cell's subgrid; the recorded subgrid
    statuses play no part. *)
Theorem is_valid_move_spec (b : Board) (row col : Z) :
  0 ≤ row < 9 → 0 ≤ col < 9 →
  (is_valid_move b row col = Returns true
   ↔ cell (board b) row col = 0
     ∧ (next_subgrid b = None ∨ next_subgrid b = Some (row / 3 * 3 + col / 3)))
  ∧ (is_valid_move b row col = Returns true ∨ is_valid_move b row col = Returns false)
  ∧ (∀ w, is_valid_move (with_subgrid_wins w b) row col = is_valid_move b row col).
Proof.
  intros Hr Hc. split; [|split].
  - rewrite is_valid_move_in_range by assumption.
    destruct (next_subgrid b) as [forced|].
    + split.
      * intros [= H]. apply andb_true_iff in H as [H1 H2].
        apply Z.eqb_eq in H1, H2. split; [assumption|]. right. congruence.
      * intros [H0 [H|[= <-]]]; [discriminate|].
        rewrite H0, Z.eqb_refl. reflexivity.
    + split.
      * intros [= H]. apply Z.eqb_eq in H. auto.
      * intros [-> _]. reflexivity.
  - rewrite is_valid_move_in_range by assumption.
    match goal with |- Returns ?x = _ ∨ _ => destruct x end; auto.
  - intros w. reflexivity.
Qed.

Lemma failed_call_is_atomic_witness :
  (call (UpdateCell 85 1) init).1 = Raises OutOfRange
  ∧ (call (UpdateCell 85 1) init).2 = init.
Proof.
  split; [reflexivity|].
  apply (failed_call_is_atomic (UpdateCell 85 1) init OutOfRange). reflexivity.
Defined.

Lemma is_valid_move_spec_witness :
  (is_valid_move init 4 4 = Returns true
   ↔ cell (board init) 4 4 = 0
     ∧ (next_subgrid init = None ∨ next_subgrid init = Some (4 / 3 * 3 + 4 / 3)))
  ∧ (is_valid_move init 4 4 = Returns true ∨ is_valid_move init 4 4 = Returns false)
  ∧ (∀ w, is_valid_move (with_subgrid_wins w init) 4 4 = is_valid_move init 4 4).
Proof. apply (is_valid_move_spec init 4 4); lia. Defined.

(** ** The two entry points *)

Lemma subgrid_coords s f :
  0 ≤ s < 9 → 0 ≤ f < 9 →
  let row := s / 3 * 3 + f / 3 in
  let col := s mod 3 * 3 + f mod 3 in
  0 ≤ row < 9 ∧ 0 ≤ col < 9 ∧ row / 3 * 3 + col / 3 = s.
Proof.
  intros Hs Hf. enum9 s Hs; enum9 f Hf; vm_compute; intuition congruence.
Qed.

(** C8: for a subgrid index and a cell index both in [0, 9) and any value,
    [update_cell_in_subgrid] and [update_cell] at the flat index of the same
    global position have the same outcome and leave the same board. *)
Theorem dual_entry_points_agree (b : Board) (s f value : Z) :
  0 ≤ s < 9 → 0 ≤ f < 9 →
  update_cell_in_subgrid s f value b =
  update_cell (flat (s / 3 * 3 + f / 3) (s mod 3 * 3 + f mod 3)) value b.
Proof.
  intros Hs Hf.
  destruct (subgrid_coords s f Hs Hf) as (Hr & Hc & Hsub).
  rewrite update_cell_in_subgrid_unfold, update_cell_unfold.
  destruct (flat_row_col (s / 3 * 3 + f / 3) (s mod 3 * 3 + f mod 3) Hc) as [-> ->].
  rewrite Hsub.
  assert (0 ≤ flat (s / 3 * 3 + f / 3) (s mod 3 * 3 + f mod 3) < 81) by (unfold flat; lia).
  destruct ((0 <=? s) && (s <? 9)) eqn:E1; [|lia].
  destruct ((0 <=? f) && (f <? 9)) eqn:E2; [|lia].
  destruct ((0 <=? flat _ _) && (flat _ _ <? 81)) eqn:E3; [|lia].
  reflexivity.
Qed.

Lemma dual_entry_points_agree_witness :
  0 ≤ 4 < 9 ∧ 0 ≤ 5 < 9
  ∧ update_cell_in_subgrid 4 5 1 init =
    update_cell (flat (4 / 3 * 3 + 5 / 3) (4 mod 3 * 3 + 5 mod 3)) 1 init.
Proof.
  split; [lia|]. split; [lia|]. apply (dual_entry_points_agree init 4 5 1); lia.
Defined.

(** ** Reading and writing cells *)



Lemma cell_set_cell_ne g r c v r' c' :
  0 ≤ r → 0 ≤ c → 0 ≤ r' → 0 ≤ c' → (r, c) ≠ (r', c') →
  cell (set_cell g r c v) r' c' = cell g r' c'.
Proof.
  intros Hr Hc Hr' Hc' Hne. unfold cell, set_cell.
  rewrite list_lookup_alter. destruct (decide (Z.to_nat r = Z.to_nat r')) as [E|]; [|done].
  assert (r = r') by lia. subst r'.
  destruct (g !! Z.to_nat r) as [row|]; [|done]. cbn.
  rewrite list_lookup_insert_ne; [done|].
  intros E'. apply Hne. f_equal. lia.
Qed.

Lemma cell_set_cell_eq g r c v :
  wf_grid g → 0 ≤ r < 9 → 0 ≤ c < 9 → cell (set_cell g r c v) r c = v.
Proof.
  intros [Hlen Hrows] Hr Hc. unfold cell, set_cell.
  rewrite list_lookup_alter_eq.
  destruct (lookup_lt_is_Some_2 g (Z.to_nat r)) as [row Hrow]; [lia|].
  rewrite Hrow. cbn.
  rewrite list_lookup_insert_eq; [done|].
  rewrite Forall_lookup in Hrows. rewrite (Hrows _ _ Hrow). lia.
Qed.

Lemma wf_set_cell g r c v : wf_grid g → wf_grid (set_cell g r c v).
Proof.
  intros [Hlen Hrows]. unfold set_cell. split.
  - by rewrite length_alter.
  - rewrite Forall_lookup in Hrows |- *. intros i row.
    rewrite list_lookup_alter. destruct (decide (Z.to_nat r = i)) as [<-|].
    + destruct (g !! Z.to_nat r) as [row0|] eqn:E; [|done]. cbn.
      intros [= <-]. rewrite length_insert. eauto.
    + eauto.
Qed.

(** ** A move with the value 0 *)



(** ** Lines *)

Lemma elem_of_range n i : i ∈ range n ↔ 0 ≤ i < Z.of_nat n.
Proof.
  unfold range. rewrite list_elem_of_fmap. split.
  - intros (k & -> & Hk). apply elem_of_seq in Hk. lia.
  - intros H. exists (Z.to_nat i). split; [lia|]. apply elem_of_seq. lia.
Qed.

Lemma all_eq_fmap g player (f : Z → Z * Z) n :
  all_eq g player (f <$> range n) = true
  ↔ ∀ i, 0 ≤ i < Z.of_nat n → cell g (f i).1 (f i).2 = player.
Proof.
  unfold all_eq. rewrite forallb_forall. split.
  - intros H i Hi. apply Z.eqb_eq, H, list_elem_of_In, list_elem_of_fmap.
    exists i. split; [done|]. by apply elem_of_range.
  - intros H rc Hin. apply list_elem_of_In, list_elem_of_fmap in Hin as (i & -> & Hi).
    apply Z.eqb_eq, H. by apply elem_of_range.
Qed.

Lemma has_line_spec n g player :
  has_line n g player = true
  ↔ (∃ i, 0 ≤ i < Z.of_nat n ∧ ∀ j, 0 ≤ j < Z.of_nat n → cell g i j = player)
    ∨ (∃ i, 0 ≤ i < Z.of_nat n ∧ ∀ j, 0 ≤ j < Z.of_nat n → cell g j i = player)
    ∨ (∀ i, 0 ≤ i < Z.of_nat n → cell g i i = player)
    ∨ (∀ i, 0 ≤ i < Z.of_nat n → cell g i (Z.of_nat n - 1 - i) = player).
Proof.
  unfold has_line, row_line, col_line, diag_line, anti_line.
  rewrite !orb_true_iff, existsb_exists.
  rewrite (all_eq_fmap g player (λ i, (i, i))).
  rewrite (all_eq_fmap g player (λ i, (i, Z.of_nat n - 1 - i))). cbn [fst snd].
  split.
  - intros [[(i & Hi & H)|H]|H]; [|tauto..].
    apply list_elem_of_In, elem_of_range in Hi.
    apply orb_true_iff in H as [H|H].
    + left. exists i. split; [done|].
      exact (proj1 (all_eq_fmap g player (λ j, (i, j)) n) H).
    + right. left. exists i. split; [done|].
      exact (proj1 (all_eq_fmap g player (λ j, (j, i)) n) H).
  - intros [(i & Hi & H)|[(i & Hi & H)|[H|H]]]; [| |tauto..].
    + left. left. exists i. split; [by apply list_elem_of_In, elem_of_range|].
      apply orb_true_iff. left. exact (proj2 (all_eq_fmap g player (λ j, (i, j)) n) H).
    + left. left. exists i. split; [by apply list_elem_of_In, elem_of_range|].
      apply orb_true_iff. right. exact (proj2 (all_eq_fmap g player (λ j, (j, i)) n) H).
Qed.

(** ** The overall winner *)

Lemma has_line_overall g player :
  has_line 9 g player = true ↔ overall_win_on_cells g player.
Proof.
  rewrite has_line_spec. unfold overall_win_on_cells.
  replace (Z.of_nat 9) with 9 by reflexivity.
  assert (∀ i, 9 - 1 - i = 8 - i) as E by (intros; lia).
  by setoid_rewrite E.
Qed.

(** C7: [check_winner(player)] returns [True] exactly when one of the 9
    rows, the 9 columns or the two diagonals of the 9x9 grid is entirely
    [player]; it then records [player] as the overall winner and leaves the
    rest of the board as it was, and otherwise returns [False] and changes
    nothing.  The recorded subgrid statuses are not consulted. *)
Theorem check_winner_spec (b : Board) (player : Z) :
  ((check_winner player b).1 = Returns true ↔ overall_win_on_cells (board b) player)
  ∧ (overall_win_on_cells (board b) player →
     check_winner player b = (Returns true, with_overall_winner player b)
     ∧ overall_winner (check_winner player b).2 = player
     ∧ board (check_winner player b).2 = board b
     ∧ subgrid_wins (check_winner player b).2 = subgrid_wins b
     ∧ next_subgrid (check_winner player b).2 = next_subgrid b)
  ∧ (¬ overall_win_on_cells (board b) player →
     check_winner player b = (Returns false, b))
  ∧ (∀ w, (check_winner player (with_subgrid_wins w b)).1 = (check_winner player b).1).
Proof.
  pose proof (has_line_overall (board b) player) as Hs.
  unfold check_winner. split; [|split; [|split]].
  - destruct (has_line 9 (board b) player); cbn [fst]; [tauto|].
    split; [discriminate|]. intros H. apply Hs in H. discriminate.
  - intros H. apply Hs in H. rewrite H. by repeat split.
  - intros H. destruct (has_line 9 (board b) player); [|reflexivity].
    exfalso. apply H, Hs. reflexivity.
  - intros w. cbn [board with_subgrid_wins]. by destruct (has_line 9 (board b) player).
Qed.

(** ** Bulk replacement of a subgrid *)

Lemma shape_is_3x3_inv (g : Grid) :
  shape_is_3x3 g = true →
  ∃ a0 a1 a2 b0 b1 b2 c0 c1 c2, g = [[a0; a1; a2]; [b0; b1; b2]; [c0; c1; c2]].
Proof.
  unfold shape_is_3x3. intros [Hlen Hrows]%andb_true_iff.
  apply Nat.eqb_eq in Hlen. list_of_length g Hlen.
  cbn in Hrows. rewrite !andb_true_iff, !Nat.eqb_eq in Hrows.
  destruct Hrows as (H0 & H1 & H2 & _).
  list_of_length l H0. list_of_length l0 H1. list_of_length l1 H2.
  by repeat eexists.
Qed.

Lemma cast_rows_3x3 a0 a1 a2 b0 b1 b2 c0 c1 c2 :
  cast_rows [[a0; a1; a2]; [b0; b1; b2]; [c0; c1; c2]]
  = [[int64_cast a0; int64_cast a1; int64_cast a2];
     [int64_cast b0; int64_cast b1; int64_cast b2];
     [int64_cast c0; int64_cast c1; int64_cast c2]].
Proof. reflexivity. Qed.

Lemma shape_cast_rows g : shape_is_3x3 g = true → shape_is_3x3 (cast_rows g) = true.
Proof.
  intros (a0 & a1 & a2 & b0 & b1 & b2 & c0 & c1 & c2 & ->)%shape_is_3x3_inv.
  by rewrite cast_rows_3x3.
Qed.

Lemma set_subgrid_returns (b : Board) (s : Z) (g : Grid) :
  0 ≤ s < 9 → shape_is_3x3 g = true →
  set_subgrid s g b =
    (Returns tt,
     with_board (assign_block (board b) (Z.to_nat (s / 3 * 3)) (Z.to_nat (s mod 3 * 3))
                   (cast_rows g)) b).
Proof.
  intros Hs Hg. unfold set_subgrid. rewrite Hg. cbn [negb].
  enum9 s Hs; reflexivity.
Qed.

(** Storing a 3x3 block in the place of a subgrid. *)
Lemma assign_block_subgrid (b : Board) (s : Z) (blk : Grid) :
  wf_grid (board b) → 0 ≤ s < 9 → shape_is_3x3 blk = true →
  get_subgrid
    (with_board (assign_block (board b) (Z.to_nat (s / 3 * 3)) (Z.to_nat (s mod 3 * 3)) blk) b)
    s = blk
  ∧ (∀ i j, 0 ≤ i < 3 → 0 ≤ j < 3 →
       cell (assign_block (board b) (Z.to_nat (s / 3 * 3)) (Z.to_nat (s mod 3 * 3)) blk)
         (s / 3 * 3 + i) (s mod 3 * 3 + j) = cell blk i j)
  ∧ (∀ r c, 0 ≤ r < 9 → 0 ≤ c < 9 → r / 3 * 3 + c / 3 ≠ s →
       cell (assign_block (board b) (Z.to_nat (s / 3 * 3)) (Z.to_nat (s mod 3 * 3)) blk) r c
       = cell (board b) r c).
Proof.
  intros Hwf Hs Hg.
  destruct (shape_is_3x3_inv blk Hg) as (a0 & a1 & a2 & b0 & b1 & b2 & c0 & c1 & c2 & ->).
  destruct b as [brd w ow ns]. cbn [board] in Hwf.
  explode_grid brd Hwf.
  enum9 s Hs;
    (split; [reflexivity|];
     split; [intros i j Hi Hj;
             assert (Ei : i = 0 ∨ i = 1 ∨ i = 2) by lia;
             assert (Ej : j = 0 ∨ j = 1 ∨ j = 2) by lia;
             destruct Ei as [->|[->| ->]]; destruct Ej as [->|[->| ->]]; reflexivity|];
     intros r c Hr Hc Hne; enum9 r Hr; enum9 c Hc;
     first [reflexivity | exfalso; apply Hne; reflexivity]).
Qed.

Lemma int64_cast_int64 z : - 2 ^ 63 ≤ z < 2 ^ 63 → int64_cast z = z.
Proof. intros H. unfold int64_cast. rewrite Z.mod_small by lia. lia. Qed.

Lemma int64_cast_uint64 z : 2 ^ 63 ≤ z < 2 ^ 64 → int64_cast z = z - 2 ^ 64.
Proof.
  intros H. unfold int64_cast.
  rewrite <- (Z.mod_unique (z + 2 ^ 63) (2 ^ 64) 1 (z - 2 ^ 63)); lia.
Qed.

Lemma cell_cast_rows g i j :
  shape_is_3x3 g = true → 0 ≤ i < 3 → 0 ≤ j < 3 →
  cell (cast_rows g) i j = int64_cast (cell g i j).
Proof.
  intros (a0 & a1 & a2 & b0 & b1 & b2 & c0 & c1 & c2 & ->)%shape_is_3x3_inv Hi Hj.
  rewrite cast_rows_3x3.
  assert (Ei : i = 0 ∨ i = 1 ∨ i = 2) by lia.
  assert (Ej : j = 0 ∨ j = 1 ∨ j = 2) by lia.
  destruct Ei as [->|[->| ->]]; destruct Ej as [->|[->| ->]]; reflexivity.
Qed.

(** C10, as the code has it: for a subgrid index in [0, 9) and a 3x3 array
    of an integer type, [set_subgrid] returns normally whatever the cells,
    the constraint and the new values are; afterwards the 9 cells of the
    subgrid hold the array's values as the 64-bit board stores them (a value
    of [-2^63, 2^63) as it is, a value of [2^63, 2^64) less 2^64), and the
    other 72 cells, the 9 subgrid statuses, the overall winner and the next
    constraint are as before. *)
Theorem set_subgrid_frame (b : Board) (s : Z) (g : Grid) :
  wf_grid (board b) → 0 ≤ s < 9 → shape_is_3x3 g = true → integer_array g →
  ∃ b',
    set_subgrid s g b = (Returns tt, b')
    ∧ get_subgrid b' s = cast_rows g
    ∧ (∀ i j, 0 ≤ i < 3 → 0 ≤ j < 3 →
         cell (board b') (s / 3 * 3 + i) (s mod 3 * 3 + j) = int64_cast (cell g i j)
         ∧ (- 2 ^ 63 ≤ cell g i j < 2 ^ 63 →
            cell (board b') (s / 3 * 3 + i) (s mod 3 * 3 + j) = cell g i j)
         ∧ (2 ^ 63 ≤ cell g i j < 2 ^ 64 →
            cell (board b') (s / 3 * 3 + i) (s mod 3 * 3 + j) = cell g i j - 2 ^ 64))
    ∧ (∀ r c, 0 ≤ r < 9 → 0 ≤ c < 9 → r / 3 * 3 + c / 3 ≠ s →
         cell (board b') r c = cell (board b) r c)
    ∧ subgrid_wins b' = subgrid_wins b
    ∧ overall_winner b' = overall_winner b
    ∧ next_subgrid b' = next_subgrid b.
Proof.
  intros Hwf Hs Hg _.
  destruct (assign_block_subgrid b s (cast_rows g) Hwf Hs (shape_cast_rows g Hg))
    as (Hsub & Hin & Hout).
  eexists. split; [by apply set_subgrid_returns|].
  cbn [board subgrid_wins overall_winner next_subgrid with_board].
  split; [exact Hsub|]. split; [|split; [exact Hout | done]].
  intros i j Hi Hj.
  assert (E : cell (assign_block (board b) (Z.to_nat (s / 3 * 3)) (Z.to_nat (s mod 3 * 3))
                      (cast_rows g)) (s / 3 * 3 + i) (s mod 3 * 3 + j)
              = int64_cast (cell g i j))
    by (rewrite Hin by done; by apply cell_cast_rows).
  split; [exact E|]. rewrite E. split; intros H.
  - by apply int64_cast_int64.
  - by apply int64_cast_uint64.
Qed.

(** ** Reachable boards *)

Lemma call_returns c b b' :
  call c b = (Returns tt, b') →
  ∃ row col,
    0 ≤ row < 9 ∧ 0 ≤ col < 9
    ∧ value_ok (call_value c) = true
    ∧ is_valid_move b row col = Returns true
    ∧ b' = after_move row col (call_value c) (row / 3 * 3 + col / 3) b.
Proof.
  destruct c as [index value|s f value]; cbn [call call_value].
  - intros (Hi & Hv & Hm & ->)%update_cell_returns.
    destruct (index_row_col index Hi). eauto 10.
  - intros (Hs & Hf & Hv & Hm & ->)%update_cell_in_subgrid_returns.
    destruct (subgrid_coords s f Hs Hf) as (Hr & Hc & E).
    exists (s / 3 * 3 + f / 3), (s mod 3 * 3 + f mod 3). rewrite E. auto 10.
Qed.

Lemma valid_move_cell_empty b row col :
  0 ≤ row < 9 → 0 ≤ col < 9 →
  is_valid_move b row col = Returns true → cell (board b) row col = 0.
Proof.
  intros Hr Hc. rewrite is_valid_move_in_range by assumption.
  destruct (next_subgrid b); intros [= H].
  - apply andb_true_iff in H as [_ H]. by apply Z.eqb_eq.
  - by apply Z.eqb_eq.
Qed.

Lemma after_move_subgrid_wins row col value s b :
  subgrid_wins (after_move row col value s b) =
    match List.find (has_line 3 (get_subgrid (after_move row col value s b) s)) [1; 2] with
    | Some player => <[Z.to_nat s := player]> (subgrid_wins b)
    | None => subgrid_wins b
    end.
Proof.
  rewrite (get_subgrid_ext _ (with_board (set_cell (board b) row col value) b))
    by apply after_move_board.
  unfold after_move. cbn zeta.
  rewrite (proj1 (proj2 (check_winner_frame _ _))),
    (proj1 (proj2 (update_next_subgrid_frame _ _ _))).
  unfold check_subgrid_winner. by destruct (List.find _ _).
Qed.

Lemma wf_init : wf_board init.
Proof. split; [split|]; [reflexivity | by repeat constructor | reflexivity]. Qed.

Lemma wf_after_move row col value s b :
  wf_board b → wf_board (after_move row col value s b).
Proof.
  intros [Hg Hw]. split.
  - rewrite after_move_board. by apply wf_set_cell.
  - rewrite after_move_subgrid_wins. destruct (List.find _ _); [|done].
    by rewrite length_insert.
Qed.

Lemma reachable_wf b : reachable b → wf_board b.
Proof.
  induction 1 as [|b c b' _ IH Hc]; [apply wf_init|].
  apply call_returns in Hc as (row & col & _ & _ & _ & _ & ->).
  by apply wf_after_move.
Qed.

(** ** Subgrids as windows on the grid *)

Lemma cell_get_subgrid b s i j :
  wf_grid (board b) → 0 ≤ s < 9 → 0 ≤ i < 3 → 0 ≤ j < 3 →
  cell (get_subgrid b s) i j = cell (board b) (s / 3 * 3 + i) (s mod 3 * 3 + j).
Proof.
  intros Hwf Hs Hi Hj. destruct b as [g w ow ns]. cbn [board] in *.
  explode_grid g Hwf.
  assert (Ei : i = 0 ∨ i = 1 ∨ i = 2) by lia.
  assert (Ej : j = 0 ∨ j = 1 ∨ j = 2) by lia.
  enum9 s Hs; destruct Ei as [->|[->| ->]]; destruct Ej as [->|[->| ->]]; reflexivity.
Qed.

Lemma has_line_ext n g g' player :
  (∀ i j, 0 ≤ i < Z.of_nat n → 0 ≤ j < Z.of_nat n → cell g i j = cell g' i j) →
  has_line n g player = has_line n g' player.
Proof.
  intros H. apply eq_true_iff_eq. rewrite !has_line_spec.
  assert (∀ i, 0 ≤ i < Z.of_nat n → 0 ≤ Z.of_nat n - 1 - i < Z.of_nat n) as Ha by lia.
  split; intros [(i & Hi & Hl)|[(i & Hi & Hl)|[Hl|Hl]]];
    [ left; exists i; split; [done|]; intros j Hj
    | right; left; exists i; split; [done|]; intros j Hj
    | right; right; left; intros i Hi
    | right; right; right; intros i Hi
    | left; exists i; split; [done|]; intros j Hj
    | right; left; exists i; split; [done|]; intros j Hj
    | right; right; left; intros i Hi
    | right; right; right; intros i Hi ];
    first [ rewrite <- H by auto; by auto | rewrite H by auto; by auto ].
Qed.

Lemma has_line_grows n g g' player :
  player ≠ 0 →
  (∀ i j, 0 ≤ i < Z.of_nat n → 0 ≤ j < Z.of_nat n → cell g i j ≠ 0 → cell g' i j = cell g i j) →
  has_line n g player = true → has_line n g' player = true.
Proof.
  intros Hp H. rewrite !has_line_spec.
  assert (∀ i, 0 ≤ i < Z.of_nat n → 0 ≤ Z.of_nat n - 1 - i < Z.of_nat n) as Ha by lia.
  intros [(i & Hi & Hl)|[(i & Hi & Hl)|[Hl|Hl]]];
    [ left; exists i; split; [done|]; intros j Hj
    | right; left; exists i; split; [done|]; intros j Hj
    | right; right; left; intros i Hi
    | right; right; right; intros i Hi ];
    (rewrite H; [by auto | by auto | by auto | rewrite Hl by auto; done]).
Qed.

Lemma subgrid_of_cell s i j :
  0 ≤ s < 9 → 0 ≤ i < 3 → 0 ≤ j < 3 →
  0 ≤ s / 3 * 3 + i < 9 ∧ 0 ≤ s mod 3 * 3 + j < 9
  ∧ (s / 3 * 3 + i) / 3 * 3 + (s mod 3 * 3 + j) / 3 = s.
Proof.
  intros Hs Hi Hj.
  assert (Ei : i = 0 ∨ i = 1 ∨ i = 2) by lia.
  assert (Ej : j = 0 ∨ j = 1 ∨ j = 2) by lia.
  enum9 s Hs; destruct Ei as [->|[->| ->]]; destruct Ej as [->|[->| ->]];
    vm_compute; intuition congruence.
Qed.

Lemma subgrid_of_position row col :
  0 ≤ row < 9 → 0 ≤ col < 9 → 0 ≤ row / 3 * 3 + col / 3 < 9.
Proof. intros Hr Hc. enum9 row Hr; enum9 col Hc; vm_compute; intuition congruence. Qed.

Section WriteCell.
Variables (b b1 : Board) (row col value : Z).
Hypothesis Hwf : wf_grid (board b).
Hypothesis Hrow : 0 ≤ row < 9.
Hypothesis Hcol : 0 ≤ col < 9.
Hypothesis Hb1 : board b1 = set_cell (board b) row col value.

Let Hwf1 : wf_grid (board b1).
Proof. rewrite Hb1. by apply wf_set_cell. Qed.

(** Writing a cell leaves the other subgrids as they were. *)
Lemma subgrid_cells_other s i j :
  0 ≤ s < 9 → s ≠ row / 3 * 3 + col / 3 → 0 ≤ i < 3 → 0 ≤ j < 3 →
  cell (get_subgrid b1 s) i j = cell (get_subgrid b s) i j.
Proof.
  intros Hs Hne Hi Hj.
  destruct (subgrid_of_cell s i j Hs Hi Hj) as (Hr' & Hc' & E).
  rewrite !cell_get_subgrid by done.
  rewrite Hb1. apply cell_set_cell_ne; try lia. intros [= -> ->]. by apply Hne.
Qed.

Hypothesis Hempty : cell (board b) row col = 0.

(** Writing an empty cell keeps every mark that a subgrid already shows. *)
Lemma subgrid_cells_grow s i j :
  0 ≤ s < 9 → 0 ≤ i < 3 → 0 ≤ j < 3 →
  cell (get_subgrid b s) i j ≠ 0 →
  cell (get_subgrid b1 s) i j = cell (get_subgrid b s) i j.
Proof.
  intros Hs Hi Hj.
  destruct (subgrid_of_cell s i j Hs Hi Hj) as (Hr' & Hc' & _).
  rewrite !cell_get_subgrid by done.
  rewrite Hb1. intros Hne.
  apply cell_set_cell_ne; try lia. intros [= -> ->]. contradiction.
Qed.

(** So a line of a player, once there, stays. *)
Lemma scan_subgrid_grows s player :
  0 ≤ s < 9 → player ≠ 0 →
  has_line 3 (get_subgrid b s) player = true →
  has_line 3 (get_subgrid b1 s) player = true.
Proof.
  intros Hs Hp. apply has_line_grows; [done|].
  intros i j Hi Hj. change (Z.of_nat 3) with 3 in Hi, Hj.
  by apply subgrid_cells_grow.
Qed.
End WriteCell.

Lemma scan_subgrid_eq g :
  scan_subgrid g = if has_line 3 g 1 then 1 else if has_line 3 g 2 then 2 else 0.
Proof.
  unfold scan_subgrid. cbn [List.find].
  destruct (has_line 3 g 1); [done|]. by destruct (has_line 3 g 2).
Qed.

Lemma find_scan_subgrid g :
  List.find (has_line 3 g) [1; 2] =
    if scan_subgrid g =? 0 then None else Some (scan_subgrid g).
Proof.
  unfold scan_subgrid. cbn [List.find].
  destruct (has_line 3 g 1); [done|]. by destruct (has_line 3 g 2).
Qed.

Lemma win_at_insert (w : list Z) s s' p :
  length w = 9%nat → 0 ≤ s < 9 → 0 ≤ s' →
  win_at (<[Z.to_nat s := p]> w) s' = if decide (s = s') then p else win_at w s'.
Proof.
  intros Hlen Hs Hs'. unfold win_at.
  destruct (decide (s = s')) as [<-|Hne].
  - rewrite list_lookup_insert_eq; [done|lia].
  - rewrite list_lookup_insert_ne; [done|lia].
Qed.

Lemma statuses_init : statuses_follow_grid init.
Proof. intros s Hs. enum9 s Hs; reflexivity. Qed.

Lemma statuses_after_move b row col value :
  wf_board b → statuses_follow_grid b →
  0 ≤ row < 9 → 0 ≤ col < 9 → cell (board b) row col = 0 →
  statuses_follow_grid (after_move row col value (row / 3 * 3 + col / 3) b).
Proof.
  intros [Hwf Hlen] Hinv Hr Hc Hempty s Hs.
  pose proof (subgrid_of_position row col Hr Hc) as Hsi.
  set (si := row / 3 * 3 + col / 3) in *.
  set (b' := after_move row col value si b).
  assert (Hb' : board b' = set_cell (board b) row col value) by apply after_move_board.
  unfold b'. rewrite after_move_subgrid_wins. fold b'.
  rewrite find_scan_subgrid.
  destruct (decide (si = s)) as [<-|Hne].
  - destruct (scan_subgrid (get_subgrid b' si) =? 0) eqn:E.
    + apply Z.eqb_eq in E. rewrite E, (Hinv si Hsi).
      rewrite scan_subgrid_eq in E |- *.
      pose proof (λ p, scan_subgrid_grows b b' row col value Hwf Hr Hc Hb' Hempty si p Hsi) as G.
      destruct (has_line 3 (get_subgrid b si) 1) eqn:E1.
      { rewrite (G 1) in E by done. done. }
      destruct (has_line 3 (get_subgrid b si) 2) eqn:E2; [|done].
      rewrite (G 2) in E by done. by destruct (has_line 3 (get_subgrid b' si) 1).
    + rewrite win_at_insert by (done || lia). by rewrite decide_True.
  - assert (Hsame : scan_subgrid (get_subgrid b' s) = scan_subgrid (get_subgrid b s)).
    { rewrite !scan_subgrid_eq.
      rewrite !(has_line_ext 3 (get_subgrid b' s) (get_subgrid b s)); [done|..];
        intros i j Hi Hj; change (Z.of_nat 3) with 3 in Hi, Hj;
        by apply (subgrid_cells_other b b' row col value). }
    rewrite Hsame, <- (Hinv s Hs).
    destruct (_ =? 0); [done|].
    rewrite win_at_insert by (done || lia). by rewrite decide_False.
Qed.

Lemma reachable_statuses b : reachable b → statuses_follow_grid b.
Proof.
  induction 1 as [|b c b' Hb IH Hc]; [apply statuses_init|].
  apply call_returns in Hc as (row & col & Hr & Hcol & _ & Hm & ->).
  apply statuses_after_move; auto using reachable_wf, valid_move_cell_empty.
Qed.

(** ** Subgrid statuses over time *)

(** C1, as the code has it: on a reachable board, a subgrid recorded as won
    by player 1 stays so after every successful update; a subgrid recorded
    as won by player 2 stays so unless player 1 then has a line in it, in
    which case the record becomes player 1.  A record never goes back to
    0. *)
Theorem subgrid_status_after_call (b b' : Board) (c : Call) (s p : Z) :
  reachable b → 0 ≤ s < 9 → p = 1 ∨ p = 2 →
  win_at (subgrid_wins b) s = p →
  call c b = (Returns tt, b') →
  win_at (subgrid_wins b') s =
    if (p =? 2) && has_line 3 (get_subgrid b' s) 1 then 1 else p.
Proof.
  intros Hb Hs Hp Hw Hc.
  assert (Hb' : reachable b') by (eapply reachable_call; eauto).
  pose proof (reachable_wf b Hb) as [Hwf _].
  rewrite <- Hw, (reachable_statuses b Hb s Hs), (reachable_statuses b' Hb' s Hs).
  rewrite (reachable_statuses b Hb s Hs) in Hw.
  apply call_returns in Hc as (row & col & Hr & Hcol & _ & Hm & Hafter).
  assert (Hboard : board b' = set_cell (board b) row col (call_value c))
    by (rewrite Hafter; apply after_move_board).
  pose proof (valid_move_cell_empty b row col Hr Hcol Hm) as Hempty.
  pose proof (λ p, scan_subgrid_grows b b' row col _ Hwf Hr Hcol Hboard Hempty s p Hs) as G.
  rewrite Hw. rewrite scan_subgrid_eq in Hw |- *.
  destruct (has_line 3 (get_subgrid b s) 1) eqn:E1.
  - subst p. rewrite (G 1) by done. done.
  - destruct (has_line 3 (get_subgrid b s) 2) eqn:E2; [|lia].
    subst p. rewrite (G 2) by done. cbn.
    by destruct (has_line 3 (get_subgrid b' s) 1).
Qed.

Lemma reachable_board_subgrid0 : reachable board_subgrid0.
Proof. apply (reachable_play game_subgrid0 init); [constructor | vm_compute; reflexivity]. Qed.

Lemma subgrid_status_after_call_witness :
  reachable board_subgrid0 ∧ 0 ≤ 0 < 9 ∧ (2 = 1 ∨ 2 = 2)
  ∧ win_at (subgrid_wins board_subgrid0) 0 = 2
  ∧ call (UpdateCell (flat 0 2) 2) board_subgrid0 =
      (Returns tt, (call (UpdateCell (flat 0 2) 2) board_subgrid0).2)
  ∧ win_at (subgrid_wins (call (UpdateCell (flat 0 2) 2) board_subgrid0).2) 0 =
      if (2 =? 2)
         && has_line 3 (get_subgrid (call (UpdateCell (flat 0 2) 2) board_subgrid0).2 0) 1
      then 1 else 2.
Proof.
  split; [exact reachable_board_subgrid0|]. split; [lia|]. split; [right; reflexivity|].
  split; [reflexivity|]. split; [vm_compute; reflexivity|].
  apply (subgrid_status_after_call board_subgrid0 _ (UpdateCell (flat 0 2) 2) 0 2);
    [exact reachable_board_subgrid0 | lia | right; reflexivity | reflexivity
    | vm_compute; reflexivity].
Defined.

(** C1, as stated, fails.  In alternating play player 2 completes the
    bottom row of subgrid 0, which is recorded as won by 2; fourteen moves
    in, player 1 completes the top row of the same subgrid, and the record
    becomes 1. *)
Lemma subgrid_status_overwritten :
  play game_subgrid0 init = Some board_subgrid0
  ∧ win_at (subgrid_wins board_subgrid0) 0 = 2
  ∧ (call (UpdateCellInSubgrid 0 2 1) board_subgrid0).1 = Returns tt
  ∧ win_at (subgrid_wins (call (UpdateCellInSubgrid 0 2 1) board_subgrid0).2) 0 = 1
  ∧ ¬ subgrid_status_write_once.
Proof.
  assert (Hc : call (UpdateCellInSubgrid 0 2 1) board_subgrid0 =
               (Returns tt, (call (UpdateCellInSubgrid 0 2 1) board_subgrid0).2))
    by (vm_compute; reflexivity).
  split; [vm_compute; reflexivity|]. split; [reflexivity|].
  split; [vm_compute; reflexivity|]. split; [vm_compute; reflexivity|].
  intros H.
  specialize (H board_subgrid0 _ (UpdateCellInSubgrid 0 2 1) 0 2
                reachable_board_subgrid0 ltac:(lia) ltac:(right; reflexivity)
                ltac:(reflexivity) Hc).
  vm_compute in H. discriminate.
Qed.

(** ** The overall winner over time *)

Lemma after_move_overall row col value s b :
  overall_winner (after_move row col value s b) =
    if has_line 9 (board (after_move row col value s b)) value
    then value else overall_winner b.
Proof.
  unfold after_move at 1. cbn zeta.
  rewrite check_winner_overall.
  rewrite (proj2 (proj2 (update_next_subgrid_frame _ _ _))),
    (proj1 (proj2 (check_subgrid_winner_frame _ _))).
  unfold after_move. cbn zeta. rewrite (proj1 (check_winner_frame _ _)). reflexivity.
Qed.

(** C3, as the code has it: after a successful update with the value of a
    player, the overall winner is that player if the grid then holds a full
    line of that player's marks, and is unchanged otherwise.  So such a call
    never clears a recorded winner and never changes it when the mover is
    the recorded winner; it replaces it by the mover when the mover has a
    full line. *)
Theorem overall_winner_after_call (b b' : Board) (c : Call) :
  call_value c = 1 ∨ call_value c = 2 →
  call c b = (Returns tt, b') →
  (overall_win_on_cells (board b') (call_value c) → overall_winner b' = call_value c)
  ∧ (¬ overall_win_on_cells (board b') (call_value c) →
     overall_winner b' = overall_winner b)
  ∧ (overall_winner b ≠ 0 → overall_winner b' ≠ 0)
  ∧ (overall_winner b = call_value c → overall_winner b' = call_value c).
Proof.
  intros Hv Hc.
  apply call_returns in Hc as (row & col & _ & _ & _ & _ & ->).
  rewrite after_move_overall.
  set (b' := after_move _ _ _ _ _).
  pose proof (has_line_overall (board b') (call_value c)) as Hs.
  destruct (has_line 9 (board b') (call_value c)).
  - repeat split; try done; [tauto | lia].
  - repeat split; try done. intros H. apply Hs in H. discriminate.
Qed.

Lemma reachable_board_two_rows : reachable board_two_rows.
Proof. apply (reachable_play game_two_rows init); [constructor | vm_compute; reflexivity]. Qed.

Lemma overall_winner_after_call_witness :
  overall_winner board_two_rows = 1
  ∧ ((call_value (UpdateCell (flat 4 2) 1) = 1 ∨ call_value (UpdateCell (flat 4 2) 1) = 2)
   ∧ call (UpdateCell (flat 4 2) 1) board_two_rows = (Returns tt, (call (UpdateCell (flat 4 2) 1) board_two_rows).2)
   ∧ (overall_win_on_cells (board (call (UpdateCell (flat 4 2) 1) board_two_rows).2) (call_value (UpdateCell (flat 4 2) 1)) →
      overall_winner (call (UpdateCell (flat 4 2) 1) board_two_rows).2 = call_value (UpdateCell (flat 4 2) 1))
   ∧ (¬ overall_win_on_cells (board (call (UpdateCell (flat 4 2) 1) board_two_rows).2) (call_value (UpdateCell (flat 4 2) 1)) →
      overall_winner (call (UpdateCell (flat 4 2) 1) board_two_rows).2 = overall_winner board_two_rows)
   ∧ (overall_winner board_two_rows ≠ 0 →
      overall_winner (call (UpdateCell (flat 4 2) 1) board_two_rows).2 ≠ 0)
   ∧ (overall_winner board_two_rows = call_value (UpdateCell (flat 4 2) 1) →
      overall_winner (call (UpdateCell (flat 4 2) 1) board_two_rows).2 = call_value (UpdateCell (flat 4 2) 1)))
  ∧ ((call_value (UpdateCell (flat 4 2) 2) = 1 ∨ call_value (UpdateCell (flat 4 2) 2) = 2)
   ∧ call (UpdateCell (flat 4 2) 2) board_two_rows = (Returns tt, (call (UpdateCell (flat 4 2) 2) board_two_rows).2)
   ∧ (overall_win_on_cells (board (call (UpdateCell (flat 4 2) 2) board_two_rows).2) (call_value (UpdateCell (flat 4 2) 2)) →
      overall_winner (call (UpdateCell (flat 4 2) 2) board_two_rows).2 = call_value (UpdateCell (flat 4 2) 2))
   ∧ (¬ overall_win_on_cells (board (call (UpdateCell (flat 4 2) 2) board_two_rows).2) (call_value (UpdateCell (flat 4 2) 2)) →
      overall_winner (call (UpdateCell (flat 4 2) 2) board_two_rows).2 = overall_winner board_two_rows)
   ∧ (overall_winner board_two_rows ≠ 0 →
      overall_winner (call (UpdateCell (flat 4 2) 2) board_two_rows).2 ≠ 0)
   ∧ (overall_winner board_two_rows = call_value (UpdateCell (flat 4 2) 2) →
      overall_winner (call (UpdateCell (flat 4 2) 2) board_two_rows).2 = call_value (UpdateCell (flat 4 2) 2))).
Proof.
  split; [reflexivity|]. split.
  - split; [left; reflexivity|]. split; [vm_compute; reflexivity|].
    apply (overall_winner_after_call board_two_rows _ (UpdateCell (flat 4 2) 1));
      [left; reflexivity | vm_compute; reflexivity].
  - split; [right; reflexivity|]. split; [vm_compute; reflexivity|].
    apply (overall_winner_after_call board_two_rows _ (UpdateCell (flat 4 2) 2));
      [right; reflexivity | vm_compute; reflexivity].
Defined.

(** The three cases on that board, where the record is 1: a mark of
    player 1, who has a line, keeps it; a mark of player 2 at (4, 2)
    completes nothing and keeps it; the mark of player 2 at (3, 1) completes
    row 3 and replaces it. *)
Lemma overall_winner_after_call_at_recorded_winner :
  overall_winner board_two_rows = 1
  ∧ overall_win_on_cells (board (call (UpdateCell (flat 4 2) 1) board_two_rows).2) 1
  ∧ overall_winner (call (UpdateCell (flat 4 2) 1) board_two_rows).2 = 1
  ∧ ¬ overall_win_on_cells (board (call (UpdateCell (flat 4 2) 2) board_two_rows).2) 2
  ∧ overall_winner (call (UpdateCell (flat 4 2) 2) board_two_rows).2 = 1
  ∧ overall_win_on_cells (board (call (UpdateCell (flat 3 1) 2) board_two_rows).2) 2
  ∧ overall_winner (call (UpdateCell (flat 3 1) 2) board_two_rows).2 = 2.
Proof.
  split; [reflexivity|].
  split; [apply has_line_overall; vm_compute; reflexivity|].
  split; [vm_compute; reflexivity|].
  split; [intros H; apply has_line_overall in H; vm_compute in H; discriminate|].
  split; [vm_compute; reflexivity|].
  split; [apply has_line_overall; vm_compute; reflexivity|].
  vm_compute; reflexivity.
Qed.

(** C3, as stated, fails.  In alternating play player 1 fills row 1 and is
    recorded as the overall winner; three moves later player 2 fills row 3,
    and the record becomes 2. *)
Lemma overall_winner_overwritten :
  play game_two_rows init = Some board_two_rows
  ∧ overall_winner board_two_rows = 1
  ∧ (call (UpdateCell (flat 3 1) 2) board_two_rows).1 = Returns tt
  ∧ overall_winner (call (UpdateCell (flat 3 1) 2) board_two_rows).2 = 2
  ∧ ¬ overall_winner_write_once.
Proof.
  assert (Hc : call (UpdateCell (flat 3 1) 2) board_two_rows =
               (Returns tt, (call (UpdateCell (flat 3 1) 2) board_two_rows).2))
    by (vm_compute; reflexivity).
  split; [vm_compute; reflexivity|]. split; [reflexivity|].
  split; [vm_compute; reflexivity|]. split; [vm_compute; reflexivity|].
  intros H.
  specialize (H board_two_rows _ (UpdateCell (flat 3 1) 2) 1
                reachable_board_two_rows ltac:(left; reflexivity)
                ltac:(reflexivity) Hc).
  vm_compute in H. discriminate.
Qed.

(** On the same board the value 0 at the same cell finds the empty row 2
    and erases the record. *)
Lemma overall_winner_erased_by_empty_value :
  (call (UpdateCell (flat 3 1) 0) board_two_rows).1 = Returns tt
  ∧ overall_winner (call (UpdateCell (flat 3 1) 0) board_two_rows).2 = 0.
Proof. split; vm_compute; reflexivity. Qed.

(** ** Worked runs *)

(** A first move at index 0 is accepted and forces subgrid 0. *)
Lemma first_move_forces_subgrid0 :
  update_cell 0 1 init = (Returns tt, (update_cell 0 1 init).2)
  ∧ cell (board (update_cell 0 1 init).2) 0 0 = 1
  ∧ next_subgrid (update_cell 0 1 init).2 = Some 0.
Proof. repeat split; vm_compute; reflexivity. Qed.

(** Index 85 is refused. *)
Lemma index_85_refused : update_cell 85 1 init = (Raises OutOfRange, init).
Proof. reflexivity. Qed.

(** In alternating play the ninth mark of player 1 on row 4 makes player 1
    the overall winner at once, with only subgrids 3 and 5 recorded as won
    before the move. *)
Lemma row4_wins_at_ninth_mark :
  play game_row4 init = Some board_row4
  ∧ overall_winner board_row4 = 0
  ∧ (call (UpdateCell (flat 4 4) 1) board_row4).1 = Returns tt
  ∧ overall_winner (call (UpdateCell (flat 4 4) 1) board_row4).2 = 1.
Proof. repeat split; vm_compute; reflexivity. Qed.

(** A cell of a won subgrid is still a valid move. *)
Lemma valid_move_in_won_subgrid :
  win_at (subgrid_wins board_subgrid0) 0 = 2
  ∧ is_valid_move board_subgrid0 0 2 = Returns true.
Proof. split; reflexivity. Qed.

Lemma wf_board_subgrid0 : wf_grid (board board_subgrid0).
Proof. split; [reflexivity | by repeat constructor]. Qed.

Lemma integer_array_uint64_subgrid : integer_array uint64_subgrid.
Proof. repeat constructor; vm_compute; congruence. Qed.

Lemma set_subgrid_frame_witness :
  wf_grid (board board_subgrid0) ∧ 0 ≤ 0 < 9 ∧ shape_is_3x3 uint64_subgrid = true
  ∧ integer_array uint64_subgrid
  ∧ ∃ b',
      set_subgrid 0 uint64_subgrid board_subgrid0 = (Returns tt, b')
      ∧ get_subgrid b' 0 = cast_rows uint64_subgrid
      ∧ (∀ i j, 0 ≤ i < 3 → 0 ≤ j < 3 →
           cell (board b') (0 / 3 * 3 + i) (0 mod 3 * 3 + j)
           = int64_cast (cell uint64_subgrid i j)
           ∧ (- 2 ^ 63 ≤ cell uint64_subgrid i j < 2 ^ 63 →
              cell (board b') (0 / 3 * 3 + i) (0 mod 3 * 3 + j) = cell uint64_subgrid i j)
           ∧ (2 ^ 63 ≤ cell uint64_subgrid i j < 2 ^ 64 →
              cell (board b') (0 / 3 * 3 + i) (0 mod 3 * 3 + j)
              = cell uint64_subgrid i j - 2 ^ 64))
      ∧ (∀ r c, 0 ≤ r < 9 → 0 ≤ c < 9 → r / 3 * 3 + c / 3 ≠ 0 →
           cell (board b') r c = cell (board board_subgrid0) r c)
      ∧ subgrid_wins b' = subgrid_wins board_subgrid0
      ∧ overall_winner b' = overall_winner board_subgrid0
      ∧ next_subgrid b' = next_subgrid board_subgrid0.
Proof.
  split; [exact wf_board_subgrid0|]. split; [lia|]. split; [reflexivity|].
  split; [exact integer_array_uint64_subgrid|].
  apply (set_subgrid_frame board_subgrid0 0 uint64_subgrid);
    [exact wf_board_subgrid0 | lia | reflexivity | exact integer_array_uint64_subgrid].
Defined.

(** C10, as stated, fails.  The argument is a 3x3 array of unsigned 64-bit
    integers with 2^63 in its corner; after [set_subgrid(0, ...)] on a fresh
    board the corner cell holds -2^63. *)
Lemma set_subgrid_wraps_uint64 :
  shape_is_3x3 uint64_subgrid = true
  ∧ integer_array uint64_subgrid
  ∧ cell uint64_subgrid 0 0 = 2 ^ 63
  ∧ (set_subgrid 0 uint64_subgrid init).1 = Returns tt
  ∧ cell (board (set_subgrid 0 uint64_subgrid init).2) 0 0 = - 2 ^ 63
  ∧ get_subgrid (set_subgrid 0 uint64_subgrid init).2 0 ≠ uint64_subgrid
  ∧ ¬ set_subgrid_stores_values.
Proof.
  split; [reflexivity|]. split; [exact integer_array_uint64_subgrid|].
  split; [reflexivity|]. split; [reflexivity|]. split; [vm_compute; reflexivity|].
  assert (Hne : get_subgrid (set_subgrid 0 uint64_subgrid init).2 0 ≠ uint64_subgrid)
    by (vm_compute; discriminate).
  split; [exact Hne|].
  intros H.
  destruct (H init 0 uint64_subgrid (proj1 wf_init) ltac:(lia) eq_refl
              integer_array_uint64_subgrid) as (b' & Hb' & Hg).
  apply Hne. by rewrite Hb'.
Qed.

(** After the replacement above subgrid 0 is empty and still recorded as
    won by player 2. *)
Lemma set_subgrid_leaves_stale_status :
  (set_subgrid 0 empty_subgrid board_subgrid0).1 = Returns tt
  ∧ scan_subgrid (get_subgrid (set_subgrid 0 empty_subgrid board_subgrid0).2 0) = 0
  ∧ win_at (subgrid_wins (set_subgrid 0 empty_subgrid board_subgrid0).2) 0 = 2.
Proof. repeat split; vm_compute; reflexivity. Qed.

(** * Further properties of the class *)

(** ** Coordinates *)

(** X1: [index_to_position] splits an index into a quotient and a remainder:
    with a positive [size] the two recompose to the index, the column lies
    in [0, size), the row of an index below size * size lies in [0, size),
    and the position of [row * size + col] is [(row, col)] again. *)
Theorem index_to_position_round_trip (size : Z) :
  0 < size →
  (∀ index,
     (index_to_position index size).1 * size + (index_to_position index size).2 = index
     ∧ 0 ≤ (index_to_position index size).2 < size)
  ∧ (∀ index, 0 ≤ index < size * size → 0 ≤ (index_to_position index size).1 < size)
  ∧ (∀ row col, 0 ≤ col < size → index_to_position (row * size + col) size = (row, col)).
Proof.
  intros Hsize. unfold index_to_position. cbn [fst snd]. split; [|split].
  - intros index. split; [|apply Z.mod_pos_bound; lia].
    rewrite Z.mul_comm. symmetry. apply Z.div_mod. lia.
  - intros index Hi. split; [apply Z.div_pos; lia|].
    apply Z.div_lt_upper_bound; lia.
  - intros row col Hc. f_equal.
    + rewrite Z.add_comm, Z.div_add by lia. rewrite Z.div_small by lia. lia.
    + rewrite Z.add_comm, Z.mod_add by lia. apply Z.mod_small; lia.
Qed.

Lemma index_to_position_round_trip_witness :
  0 < 9
  ∧ (∀ index,
       (index_to_position index 9).1 * 9 + (index_to_position index 9).2 = index
       ∧ 0 ≤ (index_to_position index 9).2 < 9)
  ∧ (∀ index, 0 ≤ index < 9 * 9 → 0 ≤ (index_to_position index 9).1 < 9)
  ∧ (∀ row col, 0 ≤ col < 9 → index_to_position (row * 9 + col) 9 = (row, col)).
Proof. split; [lia | apply (index_to_position_round_trip 9); lia]. Defined.

Lemma position_coords row col :
  0 ≤ row < 9 → 0 ≤ col < 9 →
  let s := row / 3 * 3 + col / 3 in
  let f := row mod 3 * 3 + col mod 3 in
  0 ≤ s < 9 ∧ 0 ≤ f < 9 ∧ s / 3 * 3 + f / 3 = row ∧ s mod 3 * 3 + f mod 3 = col.
Proof. intros Hr Hc. enum9 row Hr; enum9 col Hc; vm_compute; intuition congruence. Qed.

(** X2: Every [update_cell] call on an index of the board is the
    [update_cell_in_subgrid] call on the subgrid of the position and the
    cell's place inside it: same outcome, same board. *)
Theorem update_cell_as_subgrid_call (b : Board) (index value : Z) :
  0 ≤ index < 81 →
  update_cell index value b =
  update_cell_in_subgrid
    ((index / 9) / 3 * 3 + (index mod 9) / 3)
    ((index / 9) mod 3 * 3 + (index mod 9) mod 3) value b.
Proof.
  intros Hi. destruct (index_row_col index Hi) as [Hr Hc].
  destruct (position_coords _ _ Hr Hc) as (Hs & Hf & Er & Ec).
  rewrite update_cell_unfold, update_cell_in_subgrid_unfold, Er, Ec.
  destruct ((0 <=? index) && (index <? 81)) eqn:E1; [|lia].
  destruct ((0 <=? _) && (_ <? 9)) eqn:E2 at 1; [|lia].
  destruct ((0 <=? _) && (_ <? 9)) eqn:E3 at 1; [|lia].
  reflexivity.
Qed.

Lemma update_cell_as_subgrid_call_witness :
  0 ≤ 40 < 81
  ∧ update_cell 40 1 init =
    update_cell_in_subgrid
      ((40 / 9) / 3 * 3 + (40 mod 9) / 3)
      ((40 / 9) mod 3 * 3 + (40 mod 9) mod 3) 1 init.
Proof. split; [lia | apply (update_cell_as_subgrid_call init 40 1); lia]. Defined.

(** ** Outcomes of the update methods *)

Lemma is_valid_move_true_iff b row col :
  0 ≤ row < 9 → 0 ≤ col < 9 →
  is_valid_move b row col = Returns true
  ↔ cell (board b) row col = 0
    ∧ (next_subgrid b = None ∨ next_subgrid b = Some (row / 3 * 3 + col / 3)).
Proof.
  intros Hr Hc. rewrite is_valid_move_in_range by assumption.
  destruct (next_subgrid b) as [forced|].
  - split.
    + intros [= H]. apply andb_true_iff in H as [H1 H2].
      apply Z.eqb_eq in H1, H2. split; [assumption|]. right. congruence.
    + intros [H0 [H|[= <-]]]; [discriminate|].
      rewrite H0, Z.eqb_refl. reflexivity.
  - split.
    + intros [= H]. apply Z.eqb_eq in H. auto.
    + intros [-> _]. reflexivity.
Qed.

Lemma is_valid_move_false_iff b row col :
  0 ≤ row < 9 → 0 ≤ col < 9 →
  is_valid_move b row col = Returns false
  ↔ cell (board b) row col ≠ 0
    ∨ ∃ forced, next_subgrid b = Some forced ∧ forced ≠ row / 3 * 3 + col / 3.
Proof.
  intros Hr Hc. rewrite is_valid_move_in_range by assumption.
  destruct (next_subgrid b) as [forced|].
  - split.
    + intros [= H]. apply andb_false_iff in H as [H|H]; apply Z.eqb_neq in H.
      * right. exists forced. split; [done | congruence].
      * by left.
    + intros H. f_equal. apply andb_false_iff.
      destruct H as [H|(f & [= <-] & H)].
      * right. by apply Z.eqb_neq.
      * left. apply Z.eqb_neq. congruence.
  - split.
    + intros [= H]. left. by apply Z.eqb_neq.
    + intros [H|(f & [=] & _)]. f_equal. by apply Z.eqb_neq.
Qed.

Lemma is_valid_move_in_range_returns b row col :
  0 ≤ row < 9 → 0 ≤ col < 9 →
  is_valid_move b row col = Returns true ∨ is_valid_move b row col = Returns false.
Proof.
  intros Hr Hc. rewrite is_valid_move_in_range by assumption.
  match goal with |- Returns ?x = _ ∨ _ => destruct x end; auto.
Qed.

(** X3: [update_cell] returns normally exactly when the index is on the board,
    the value is 0, 1 or 2, the cell is empty, and the constraint is absent
    or names the cell's subgrid. *)
Theorem update_cell_succeeds_iff (b : Board) (index value : Z) :
  (update_cell index value b).1 = Returns tt
  ↔ 0 ≤ index < 81
    ∧ (value = 0 ∨ value = 1 ∨ value = 2)
    ∧ cell (board b) (index / 9) (index mod 9) = 0
    ∧ (next_subgrid b = None
       ∨ next_subgrid b = Some ((index / 9) / 3 * 3 + (index mod 9) / 3)).
Proof.
  rewrite update_cell_unfold, <- value_ok_spec.
  destruct ((0 <=? index) && (index <? 81)) eqn:Hi; cbn [negb fst];
    [|split; [discriminate | lia]].
  assert (Hin : 0 ≤ index < 81) by lia.
  destruct (index_row_col index Hin) as [Hr Hc].
  destruct (value_ok value); cbn [negb fst]; [|split; [discriminate | intuition discriminate]].
  rewrite <- is_valid_move_true_iff by assumption.
  unfold guarded_move.
  destruct (is_valid_move_in_range_returns b _ _ Hr Hc) as [-> | ->]; cbn [fst].
  - tauto.
  - split; [discriminate | intros (_ & _ & [=])].
Qed.

(** X4: The exceptions of [update_cell], in the order of its guards: an index
    off the board is reported whatever the value; on the board, a value
    other than 0, 1, 2 is reported whatever the cell; then an occupied cell
    or a cell outside the forced subgrid.  No other exception leaves the
    method. *)
Theorem update_cell_raises (b : Board) (index value : Z) (e : Error) :
  (update_cell index value b).1 = Raises e →
  (e = OutOfRange ∧ ¬ 0 ≤ index < 81)
  ∨ (e = InvalidPlayer ∧ 0 ≤ index < 81 ∧ ¬ (value = 0 ∨ value = 1 ∨ value = 2))
  ∨ (e = CellOccupiedOrWrongSubgrid
     ∧ 0 ≤ index < 81 ∧ (value = 0 ∨ value = 1 ∨ value = 2)
     ∧ (cell (board b) (index / 9) (index mod 9) ≠ 0
        ∨ ∃ forced, next_subgrid b = Some forced
                    ∧ forced ≠ (index / 9) / 3 * 3 + (index mod 9) / 3)).
Proof.
  rewrite update_cell_unfold, <- value_ok_spec.
  destruct ((0 <=? index) && (index <? 81)) eqn:Hi; cbn [negb fst];
    [|intros [= <-]; left; split; [done | lia]].
  assert (Hin : 0 ≤ index < 81) by lia.
  destruct (index_row_col index Hin) as [Hr Hc].
  destruct (value_ok value); cbn [negb fst];
    [|intros [= <-]; right; left; intuition discriminate].
  rewrite <- is_valid_move_false_iff by assumption.
  unfold guarded_move.
  destruct (is_valid_move_in_range_returns b _ _ Hr Hc) as [E | E]; rewrite E; cbn [fst].
  - discriminate.
  - intros [= <-]. right. right. auto.
Qed.

Lemma update_cell_raises_witness :
  (update_cell 85 7 init).1 = Raises OutOfRange
  ∧ ((OutOfRange = OutOfRange ∧ ¬ 0 ≤ 85 < 81)
     ∨ (OutOfRange = InvalidPlayer ∧ 0 ≤ 85 < 81 ∧ ¬ (7 = 0 ∨ 7 = 1 ∨ 7 = 2))
     ∨ (OutOfRange = CellOccupiedOrWrongSubgrid
        ∧ 0 ≤ 85 < 81 ∧ (7 = 0 ∨ 7 = 1 ∨ 7 = 2)
        ∧ (cell (board init) (85 / 9) (85 mod 9) ≠ 0
           ∨ ∃ forced, next_subgrid init = Some forced
                       ∧ forced ≠ (85 / 9) / 3 * 3 + (85 mod 9) / 3))).
Proof.
  split; [reflexivity|]. apply (update_cell_raises init 85 7 OutOfRange). reflexivity.
Defined.

(** X5: The exceptions of [update_cell_in_subgrid], in the order of its guards:
    the subgrid index, then the cell index, then the value, then the
    legality of the move at the global position. *)
Theorem update_cell_in_subgrid_raises (b : Board) (s f value : Z) (e : Error) :
  (update_cell_in_subgrid s f value b).1 = Raises e →
  (e = OutOfRange ∧ ¬ 0 ≤ s < 9)
  ∨ (e = OutOfRange ∧ 0 ≤ s < 9 ∧ ¬ 0 ≤ f < 9)
  ∨ (e = InvalidPlayer ∧ 0 ≤ s < 9 ∧ 0 ≤ f < 9 ∧ ¬ (value = 0 ∨ value = 1 ∨ value = 2))
  ∨ (e = CellOccupiedOrWrongSubgrid
     ∧ 0 ≤ s < 9 ∧ 0 ≤ f < 9 ∧ (value = 0 ∨ value = 1 ∨ value = 2)
     ∧ (subgrid_cell (board b) s (f / 3) (f mod 3) ≠ 0
        ∨ ∃ forced, next_subgrid b = Some forced ∧ forced ≠ s)).
Proof.
  rewrite update_cell_in_subgrid_unfold, <- value_ok_spec.
  destruct ((0 <=? s) && (s <? 9)) eqn:Hs; cbn [negb fst];
    [|intros [= <-]; left; split; [done | lia]].
  destruct ((0 <=? f) && (f <? 9)) eqn:Hf; cbn [negb fst];
    [|intros [= <-]; right; left; split; [done | lia]].
  assert (Hs' : 0 ≤ s < 9) by lia. assert (Hf' : 0 ≤ f < 9) by lia.
  destruct (subgrid_coords s f Hs' Hf') as (Hr & Hc & Hsub).
  destruct (value_ok value); cbn [negb fst];
    [|intros [= <-]; right; right; left; intuition discriminate].
  unfold guarded_move, subgrid_cell.
  destruct (is_valid_move_in_range_returns b _ _ Hr Hc) as [E | E]; rewrite E; cbn [fst].
  - discriminate.
  - intros [= <-]. right. right. right.
    apply is_valid_move_false_iff in E; [|done..]. rewrite Hsub in E. auto 10.
Qed.

Lemma update_cell_in_subgrid_raises_witness :
  (update_cell_in_subgrid 3 9 7 init).1 = Raises OutOfRange
  ∧ ((OutOfRange = OutOfRange ∧ ¬ 0 ≤ 3 < 9)
     ∨ (OutOfRange = OutOfRange ∧ 0 ≤ 3 < 9 ∧ ¬ 0 ≤ 9 < 9)
     ∨ (OutOfRange = InvalidPlayer ∧ 0 ≤ 3 < 9 ∧ 0 ≤ 9 < 9 ∧ ¬ (7 = 0 ∨ 7 = 1 ∨ 7 = 2))
     ∨ (OutOfRange = CellOccupiedOrWrongSubgrid
        ∧ 0 ≤ 3 < 9 ∧ 0 ≤ 9 < 9 ∧ (7 = 0 ∨ 7 = 1 ∨ 7 = 2)
        ∧ (subgrid_cell (board init) 3 (9 / 3) (9 mod 3) ≠ 0
           ∨ ∃ forced, next_subgrid init = Some forced ∧ forced ≠ 3))).
Proof.
  split; [reflexivity|].
  apply (update_cell_in_subgrid_raises init 3 9 7 OutOfRange). reflexivity.
Defined.

(** ** What a successful call writes *)

Lemma call_position c b b' :
  call c b = (Returns tt, b') →
  ∃ row col,
    0 ≤ row < 9 ∧ 0 ≤ col < 9
    ∧ cell (board b) row col = 0
    ∧ is_mark (call_value c)
    ∧ board b' = set_cell (board b) row col (call_value c).
Proof.
  intros (row & col & Hr & Hc & Hv & Hm & ->)%call_returns.
  exists row, col. split; [done|]. split; [done|].
  split; [by apply valid_move_cell_empty|].
  split; [by apply value_ok_spec | apply after_move_board].
Qed.

(** X6: A successful [update_cell] stores the value in the cell of the index,
    which was empty, and leaves the other 80 cells as they were. *)
Theorem update_cell_writes_one_cell (b b' : Board) (index value : Z) :
  wf_grid (board b) →
  update_cell index value b = (Returns tt, b') →
  cell (board b) (index / 9) (index mod 9) = 0
  ∧ cell (board b') (index / 9) (index mod 9) = value
  ∧ ∀ row col, 0 ≤ row < 9 → 0 ≤ col < 9 →
      (row, col) ≠ (index / 9, index mod 9) →
      cell (board b') row col = cell (board b) row col.
Proof.
  intros Hwf (Hi & _ & Hm & ->)%update_cell_returns.
  destruct (index_row_col index Hi) as [Hr Hc].
  rewrite after_move_board. split; [by apply valid_move_cell_empty|].
  split; [by apply cell_set_cell_eq|].
  intros row col Hrow Hcol Hne. apply cell_set_cell_ne; try lia. congruence.
Qed.

Lemma wf_grid_init : wf_grid (board init).
Proof. apply wf_init. Qed.

Lemma update_cell_writes_one_cell_witness :
  wf_grid (board init)
  ∧ update_cell 40 2 init = (Returns tt, (update_cell 40 2 init).2)
  ∧ cell (board init) (40 / 9) (40 mod 9) = 0
  ∧ cell (board (update_cell 40 2 init).2) (40 / 9) (40 mod 9) = 2
  ∧ ∀ row col, 0 ≤ row < 9 → 0 ≤ col < 9 →
      (row, col) ≠ (40 / 9, 40 mod 9) →
      cell (board (update_cell 40 2 init).2) row col = cell (board init) row col.
Proof.
  split; [exact wf_grid_init|]. split; [vm_compute; reflexivity|].
  apply (update_cell_writes_one_cell init _ 40 2);
    [exact wf_grid_init | vm_compute; reflexivity].
Defined.

Lemma call_keeps_marks c b b' row col :
  wf_grid (board b) →
  call c b = (Returns tt, b') →
  0 ≤ row < 9 → 0 ≤ col < 9 →
  cell (board b) row col ≠ 0 →
  cell (board b') row col = cell (board b) row col.
Proof.
  intros Hwf (r & k & Hr & Hk & Hempty & _ & ->)%call_position Hrow Hcol Hne.
  apply cell_set_cell_ne; try lia. intros [= -> ->]. contradiction.
Qed.

Lemma call_wf_grid c b b' :
  wf_grid (board b) → call c b = (Returns tt, b') → wf_grid (board b').
Proof.
  intros Hwf (r & k & _ & _ & _ & _ & ->)%call_position. by apply wf_set_cell.
Qed.

(** X7: Marks are never retracted: through any script of successful calls to
    the two update methods, a cell that holds a mark keeps it. *)
Theorem marks_are_permanent (calls : list Call) (b b' : Board) (row col : Z) :
  wf_grid (board b) →
  play calls b = Some b' →
  0 ≤ row < 9 → 0 ≤ col < 9 →
  cell (board b) row col ≠ 0 →
  cell (board b') row col = cell (board b) row col.
Proof.
  intros Hwf Hplay Hrow Hcol. revert b Hwf Hplay.
  induction calls as [|c rest IH]; intros b Hwf; cbn [play].
  - by intros [= <-].
  - destruct (call c b) as [[[]|e] b1] eqn:Hc; [|discriminate].
    intros Hplay Hne.
    pose proof (call_keeps_marks c b b1 row col Hwf Hc Hrow Hcol Hne) as E.
    rewrite <- E. apply IH; [by eapply call_wf_grid | done | by rewrite E].
Qed.

Lemma marks_are_permanent_witness :
  wf_grid (board board_subgrid0)
  ∧ play [UpdateCellInSubgrid 0 2 1; UpdateCellInSubgrid 2 4 2] board_subgrid0
    = Some (call (UpdateCellInSubgrid 2 4 2)
              (call (UpdateCellInSubgrid 0 2 1) board_subgrid0).2).2
  ∧ 0 ≤ 2 < 9 ∧ 0 ≤ 1 < 9
  ∧ cell (board board_subgrid0) 2 1 ≠ 0
  ∧ cell (board (call (UpdateCellInSubgrid 2 4 2)
                   (call (UpdateCellInSubgrid 0 2 1) board_subgrid0).2).2) 2 1
    = cell (board board_subgrid0) 2 1.
Proof.
  split; [exact wf_board_subgrid0|]. split; [vm_compute; reflexivity|].
  split; [lia|]. split; [lia|]. split; [vm_compute; discriminate|].
  apply (marks_are_permanent
           [UpdateCellInSubgrid 0 2 1; UpdateCellInSubgrid 2 4 2] board_subgrid0 _ 2 1);
    [exact wf_board_subgrid0 | vm_compute; reflexivity | lia | lia
    | vm_compute; discriminate].
Defined.

(** ** Subgrids on the board *)

Lemma has_line_subgrid b s player :
  wf_grid (board b) → 0 ≤ s < 9 →
  has_line 3 (get_subgrid b s) player = true ↔ subgrid_has_line (board b) s player.
Proof.
  intros Hwf Hs. rewrite has_line_spec. unfold subgrid_has_line, subgrid_cell.
  change (Z.of_nat 3) with 3. change (3 - 1) with 2.
  assert (∀ i, 0 ≤ i < 3 → 0 ≤ 2 - i < 3) as Ha by lia.
  split; intros [(i & Hi & Hl)|[(i & Hi & Hl)|[Hl|Hl]]];
    [ left; exists i; split; [done|]; intros j Hj
    | right; left; exists i; split; [done|]; intros j Hj
    | right; right; left; intros i Hi
    | right; right; right; intros i Hi
    | left; exists i; split; [done|]; intros j Hj
    | right; left; exists i; split; [done|]; intros j Hj
    | right; right; left; intros i Hi
    | right; right; right; intros i Hi ];
    first [ rewrite <- cell_get_subgrid by auto; by auto
          | rewrite cell_get_subgrid by auto; by auto ].
Qed.

Lemma is_subgrid_full_cells b s :
  wf_grid (board b) → 0 ≤ s < 9 →
  is_subgrid_full b s = true
  ↔ ∀ i j, 0 ≤ i < 3 → 0 ≤ j < 3 → subgrid_cell (board b) s i j ≠ 0.
Proof.
  intros Hwf Hs. destruct b as [g w ow ns]. cbn [board] in *.
  explode_grid g Hwf. unfold subgrid_cell.
  enum9 s Hs; unfold is_subgrid_full;
    match goal with
    | |- context [get_subgrid ?b ?s] =>
        let t := eval vm_compute in (get_subgrid b s) in change (get_subgrid b s) with t
    end;
    cbn [forallb]; rewrite !andb_true_r, !andb_true_iff, !negb_true_iff, !Z.eqb_neq;
    (split;
     [ intros H i j Hi Hj;
       assert (Ei : i = 0 ∨ i = 1 ∨ i = 2) by lia;
       assert (Ej : j = 0 ∨ j = 1 ∨ j = 2) by lia;
       destruct Ei as [->|[->| ->]]; destruct Ej as [->|[->| ->]]; cbn; tauto
     | intros H;
       pose proof (H 0 0 ltac:(lia) ltac:(lia)); pose proof (H 0 1 ltac:(lia) ltac:(lia));
       pose proof (H 0 2 ltac:(lia) ltac:(lia)); pose proof (H 1 0 ltac:(lia) ltac:(lia));
       pose proof (H 1 1 ltac:(lia) ltac:(lia)); pose proof (H 1 2 ltac:(lia) ltac:(lia));
       pose proof (H 2 0 ltac:(lia) ltac:(lia)); pose proof (H 2 1 ltac:(lia) ltac:(lia));
       pose proof (H 2 2 ltac:(lia) ltac:(lia)); clear H; cbn in *; tauto ]).
Qed.

Lemma is_subgrid_full_false b s :
  wf_grid (board b) → 0 ≤ s < 9 →
  is_subgrid_full b s = false →
  ∃ i j, 0 ≤ i < 3 ∧ 0 ≤ j < 3 ∧ subgrid_cell (board b) s i j = 0.
Proof.
  intros Hwf Hs. destruct b as [g w ow ns]. cbn [board] in *.
  explode_grid g Hwf.
  enum9 s Hs; unfold is_subgrid_full;
    match goal with
    | |- context [get_subgrid ?b ?s] =>
        let t := eval vm_compute in (get_subgrid b s) in change (get_subgrid b s) with t
    end;
    cbn [forallb]; intros H;
    repeat match type of H with
           | context [negb (?x =? 0)] =>
               let E := fresh "E" in
               revert H; destruct (Z.eqb_spec x 0) as [E|E]; intros H;
               [ clear H;
                 first [ exists 0, 0; split; [lia|]; split; [lia|]; exact E
                       | exists 0, 1; split; [lia|]; split; [lia|]; exact E
                       | exists 0, 2; split; [lia|]; split; [lia|]; exact E
                       | exists 1, 0; split; [lia|]; split; [lia|]; exact E
                       | exists 1, 1; split; [lia|]; split; [lia|]; exact E
                       | exists 1, 2; split; [lia|]; split; [lia|]; exact E
                       | exists 2, 0; split; [lia|]; split; [lia|]; exact E
                       | exists 2, 1; split; [lia|]; split; [lia|]; exact E
                       | exists 2, 2; split; [lia|]; split; [lia|]; exact E ]
               | cbn [negb andb] in H ]
           end;
    discriminate H.
Qed.

(** ** The next constraint *)

Lemma local_subgrid row col :
  0 ≤ row < 9 → 0 ≤ col < 9 →
  0 ≤ row mod 3 * 3 + col mod 3 < 9
  ∧ (row mod 3 * 3 + col mod 3) / 3 * 3 = row mod 3 * 3
  ∧ (row mod 3 * 3 + col mod 3) mod 3 * 3 = col mod 3 * 3.
Proof. intros Hr Hc. enum9 row Hr; enum9 col Hc; vm_compute; intuition congruence. Qed.

(** C4: after a successful [update_cell] at (row, col), with the local
    position (lr, lc) = (row % 3, col % 3), [next_subgrid] is the subgrid
    lr * 3 + lc exactly when that subgrid then has no recorded winner and
    one of its 9 cells, the cells (lr * 3 + i, lc * 3 + j) of the grid, is
    empty; it is [None] exactly when the subgrid has a recorded winner or
    none of these cells is empty.  The previous constraint plays no part in
    the new value. *)
Theorem next_constraint_after_update (b b' : Board) (row col value : Z) :
  wf_board b →
  0 ≤ row < 9 → 0 ≤ col < 9 →
  update_cell (flat row col) value b = (Returns tt, b') →
  next_subgrid b' =
    (if is_subgrid_full b' (row mod 3 * 3 + col mod 3)
        || negb (win_at (subgrid_wins b') (row mod 3 * 3 + col mod 3) =? 0)
     then None
     else Some (row mod 3 * 3 + col mod 3))
  ∧ ∃ w,
      subgrid_wins b' !! Z.to_nat (row mod 3 * 3 + col mod 3) = Some w
      ∧ (next_subgrid b' = Some (row mod 3 * 3 + col mod 3)
         ↔ w = 0
           ∧ ∃ i j, 0 ≤ i < 3 ∧ 0 ≤ j < 3
                    ∧ cell (board b') (row mod 3 * 3 + i) (col mod 3 * 3 + j) = 0)
      ∧ (next_subgrid b' = None
         ↔ w ≠ 0
           ∨ ∀ i j, 0 ≤ i < 3 → 0 ≤ j < 3 →
                    cell (board b') (row mod 3 * 3 + i) (col mod 3 * 3 + j) ≠ 0).
Proof.
  intros Hwf Hr Hc Hu.
  apply update_cell_returns in Hu as (_ & _ & _ & ->).
  destruct (flat_row_col row col Hc) as [-> ->].
  set (b' := after_move _ _ _ _ _).
  assert (Hwf' : wf_board b') by by apply wf_after_move.
  destruct Hwf' as [Hgrid Hlen].
  destruct (local_subgrid row col Hr Hc) as (Hn & En1 & En2).
  pose proof (after_move_next row col value (row / 3 * 3 + col / 3) b) as Hnext.
  cbn zeta in Hnext. fold b' in Hnext.
  set (n := row mod 3 * 3 + col mod 3) in *.
  split; [exact Hnext|].
  destruct (lookup_lt_is_Some_2 (subgrid_wins b') (Z.to_nat n)) as [w Hw]; [lia|].
  exists w. split; [exact Hw|].
  assert (Ew : win_at (subgrid_wins b') n = w) by (unfold win_at; by rewrite Hw).
  rewrite Ew in Hnext.
  pose proof (is_subgrid_full_cells b' n Hgrid Hn) as Hfull.
  pose proof (is_subgrid_full_false b' n Hgrid Hn) as Hnotfull.
  unfold subgrid_cell in Hfull, Hnotfull. rewrite En1, En2 in Hfull, Hnotfull.
  destruct (is_subgrid_full b' n).
  - cbn [orb] in Hnext. rewrite Hnext.
    pose proof (proj1 Hfull eq_refl) as Hall.
    split; [|tauto].
    split; [discriminate|]. intros (_ & i & j & Hi & Hj & E). by destruct (Hall i j Hi Hj).
  - destruct (Hnotfull eq_refl) as (i & j & Hi & Hj & E).
    cbn [orb] in Hnext. destruct (Z.eqb_spec w 0) as [Hw0|Hw0]; cbn [negb] in Hnext;
      rewrite Hnext.
    + split; [split; [intros _; split; [done|]; eauto 10 | done]|].
      split; [discriminate|]. intros [H|H]; [done|]. by destruct (H i j Hi Hj).
    + split; [|tauto]. split; [discriminate|]. intros [H _]. done.
Qed.

Lemma reachable_board_full_subgrid : reachable board_full_subgrid.
Proof.
  apply (reachable_play game_full_subgrid init); [constructor | vm_compute; reflexivity].
Qed.

Lemma next_constraint_after_update_witness :
  (wf_board init ∧ 0 ≤ 4 < 9 ∧ 0 ≤ 3 < 9
   ∧ update_cell (flat 4 3) 1 init = (Returns tt, (update_cell (flat 4 3) 1 init).2)
   ∧ next_subgrid (update_cell (flat 4 3) 1 init).2 =
       (if is_subgrid_full (update_cell (flat 4 3) 1 init).2 (4 mod 3 * 3 + 3 mod 3)
           || negb (win_at (subgrid_wins (update_cell (flat 4 3) 1 init).2) (4 mod 3 * 3 + 3 mod 3) =? 0)
        then None else Some (4 mod 3 * 3 + 3 mod 3))
   ∧ ∃ w,
       subgrid_wins (update_cell (flat 4 3) 1 init).2 !! Z.to_nat (4 mod 3 * 3 + 3 mod 3) = Some w
       ∧ (next_subgrid (update_cell (flat 4 3) 1 init).2 = Some (4 mod 3 * 3 + 3 mod 3)
          ↔ w = 0
            ∧ ∃ i j, 0 ≤ i < 3 ∧ 0 ≤ j < 3
                     ∧ cell (board (update_cell (flat 4 3) 1 init).2) (4 mod 3 * 3 + i) (3 mod 3 * 3 + j) = 0)
       ∧ (next_subgrid (update_cell (flat 4 3) 1 init).2 = None
          ↔ w ≠ 0
            ∨ ∀ i j, 0 ≤ i < 3 → 0 ≤ j < 3 →
                     cell (board (update_cell (flat 4 3) 1 init).2) (4 mod 3 * 3 + i) (3 mod 3 * 3 + j) ≠ 0))
  ∧ (wf_board board_full_subgrid ∧ 0 ≤ 1 < 9 ∧ 0 ≤ 1 < 9
   ∧ update_cell (flat 1 1) 1 board_full_subgrid = (Returns tt, (update_cell (flat 1 1) 1 board_full_subgrid).2)
   ∧ next_subgrid (update_cell (flat 1 1) 1 board_full_subgrid).2 =
       (if is_subgrid_full (update_cell (flat 1 1) 1 board_full_subgrid).2 (1 mod 3 * 3 + 1 mod 3)
           || negb (win_at (subgrid_wins (update_cell (flat 1 1) 1 board_full_subgrid).2) (1 mod 3 * 3 + 1 mod 3) =? 0)
        then None else Some (1 mod 3 * 3 + 1 mod 3))
   ∧ ∃ w,
       subgrid_wins (update_cell (flat 1 1) 1 board_full_subgrid).2 !! Z.to_nat (1 mod 3 * 3 + 1 mod 3) = Some w
       ∧ (next_subgrid (update_cell (flat 1 1) 1 board_full_subgrid).2 = Some (1 mod 3 * 3 + 1 mod 3)
          ↔ w = 0
            ∧ ∃ i j, 0 ≤ i < 3 ∧ 0 ≤ j < 3
                     ∧ cell (board (update_cell (flat 1 1) 1 board_full_subgrid).2) (1 mod 3 * 3 + i) (1 mod 3 * 3 + j) = 0)
       ∧ (next_subgrid (update_cell (flat 1 1) 1 board_full_subgrid).2 = None
          ↔ w ≠ 0
            ∨ ∀ i j, 0 ≤ i < 3 → 0 ≤ j < 3 →
                     cell (board (update_cell (flat 1 1) 1 board_full_subgrid).2) (1 mod 3 * 3 + i) (1 mod 3 * 3 + j) ≠ 0)).
Proof.
  split.
  - split; [exact wf_init|]. split; [lia|]. split; [lia|]. split; [reflexivity|].
    apply (next_constraint_after_update init _ 4 3 1);
      [exact wf_init | lia | lia | reflexivity].
  - split; [exact (reachable_wf _ reachable_board_full_subgrid)|].
    split; [lia|]. split; [lia|]. split; [vm_compute; reflexivity|].
    apply (next_constraint_after_update board_full_subgrid _ 1 1 1);
      [exact (reachable_wf _ reachable_board_full_subgrid) | lia | lia
      | vm_compute; reflexivity].
Defined.

(** On the second board above subgrid 4 is full with no winner recorded, and
    the move at (1, 1), whose local position names subgrid 4, leaves the
    next move free. *)
Lemma full_subgrid_frees_next_move :
  play game_full_subgrid init = Some board_full_subgrid
  ∧ (∀ i j, 0 ≤ i < 3 → 0 ≤ j < 3 → cell (board board_full_subgrid) (3 + i) (3 + j) ≠ 0)
  ∧ subgrid_wins board_full_subgrid !! 4%nat = Some 0
  ∧ (update_cell (flat 1 1) 1 board_full_subgrid).1 = Returns tt
  ∧ next_subgrid (update_cell (flat 1 1) 1 board_full_subgrid).2 = None.
Proof.
  split; [vm_compute; reflexivity|]. split; [|by vm_compute].
  intros i j Hi Hj.
  assert (Ei : i = 0 ∨ i = 1 ∨ i = 2) by lia.
  assert (Ej : j = 0 ∨ j = 1 ∨ j = 2) by lia.
  destruct Ei as [->|[->| ->]]; destruct Ej as [->|[->| ->]]; vm_compute; discriminate.
Qed.

(** X8: [is_subgrid_full] on a subgrid of the board: [True] exactly when none
    of the subgrid's 9 cells is 0, [False] exactly when one of them is. *)
Theorem is_subgrid_full_spec (b : Board) (s : Z) :
  wf_grid (board b) → 0 ≤ s < 9 →
  (is_subgrid_full b s = true
   ↔ ∀ i j, 0 ≤ i < 3 → 0 ≤ j < 3 → subgrid_cell (board b) s i j ≠ 0)
  ∧ (is_subgrid_full b s = false
     ↔ ∃ i j, 0 ≤ i < 3 ∧ 0 ≤ j < 3 ∧ subgrid_cell (board b) s i j = 0).
Proof.
  intros Hwf Hs. split; [by apply is_subgrid_full_cells|].
  split; [by apply is_subgrid_full_false|].
  intros (i & j & Hi & Hj & E).
  destruct (is_subgrid_full b s) eqn:Hfull; [|done].
  exfalso. by apply (proj1 (is_subgrid_full_cells b s Hwf Hs) Hfull i j).
Qed.

Lemma is_subgrid_full_spec_witness :
  wf_grid (board board_subgrid0) ∧ 0 ≤ 0 < 9
  ∧ (is_subgrid_full board_subgrid0 0 = true
     ↔ ∀ i j, 0 ≤ i < 3 → 0 ≤ j < 3 → subgrid_cell (board board_subgrid0) 0 i j ≠ 0)
  ∧ (is_subgrid_full board_subgrid0 0 = false
     ↔ ∃ i j, 0 ≤ i < 3 ∧ 0 ≤ j < 3 ∧ subgrid_cell (board board_subgrid0) 0 i j = 0).
Proof.
  split; [exact wf_board_subgrid0|]. split; [lia|].
  apply (is_subgrid_full_spec board_subgrid0 0); [exact wf_board_subgrid0 | lia].
Defined.


Lemma wf_board_board_subgrid0 : wf_board board_subgrid0.
Proof. split; [exact wf_board_subgrid0 | reflexivity]. Qed.


(** ** Invariants of play *)

(** X10: On every board that play can reach, the status of a subgrid is what a
    scan of its cells finds: 1 exactly when player 1 has a line in it, 2
    exactly when player 2 has a line and player 1 has none, 0 exactly when
    neither has one. *)
Theorem reachable_status_matches_grid (b : Board) (s : Z) :
  reachable b → 0 ≤ s < 9 →
  (win_at (subgrid_wins b) s = 1 ↔ subgrid_has_line (board b) s 1)
  ∧ (win_at (subgrid_wins b) s = 2
     ↔ ¬ subgrid_has_line (board b) s 1 ∧ subgrid_has_line (board b) s 2)
  ∧ (win_at (subgrid_wins b) s = 0
     ↔ ¬ subgrid_has_line (board b) s 1 ∧ ¬ subgrid_has_line (board b) s 2).
Proof.
  intros Hb Hs. pose proof (reachable_wf b Hb) as [Hwf _].
  rewrite (reachable_statuses b Hb s Hs), scan_subgrid_eq.
  pose proof (has_line_subgrid b s 1 Hwf Hs) as H1.
  pose proof (has_line_subgrid b s 2 Hwf Hs) as H2.
  destruct (has_line 3 (get_subgrid b s) 1); [|destruct (has_line 3 (get_subgrid b s) 2)].
  - intuition (try discriminate; try lia).
  - intuition (try discriminate; try lia).
  - intuition (try discriminate; try lia).
Qed.

Lemma reachable_status_matches_grid_witness :
  reachable board_two_rows ∧ 0 ≤ 4 < 9
  ∧ (win_at (subgrid_wins board_two_rows) 4 = 1 ↔ subgrid_has_line (board board_two_rows) 4 1)
  ∧ (win_at (subgrid_wins board_two_rows) 4 = 2
     ↔ ¬ subgrid_has_line (board board_two_rows) 4 1
       ∧ subgrid_has_line (board board_two_rows) 4 2)
  ∧ (win_at (subgrid_wins board_two_rows) 4 = 0
     ↔ ¬ subgrid_has_line (board board_two_rows) 4 1
       ∧ ¬ subgrid_has_line (board board_two_rows) 4 2).
Proof.
  split; [exact reachable_board_two_rows|]. split; [lia|].
  apply (reachable_status_matches_grid board_two_rows 4);
    [exact reachable_board_two_rows | lia].
Defined.

Lemma scan_subgrid_is_mark g : is_mark (scan_subgrid g).
Proof.
  rewrite scan_subgrid_eq. unfold is_mark.
  destruct (has_line 3 g 1); [auto|]. destruct (has_line 3 g 2); auto.
Qed.

Lemma reachable_cells_are_marks b :
  reachable b → ∀ row col, 0 ≤ row < 9 → 0 ≤ col < 9 → is_mark (cell (board b) row col).
Proof.
  induction 1 as [|b c b' Hb IH Hc]; intros row col Hrow Hcol.
  - enum9 row Hrow; enum9 col Hcol; by left.
  - pose proof (reachable_wf b Hb) as [Hwf _].
    apply call_position in Hc as (r & k & Hr & Hk & _ & Hv & ->).
    destruct (decide ((r, k) = (row, col))) as [[= -> ->]|Hne].
    + by rewrite cell_set_cell_eq.
    + rewrite cell_set_cell_ne by (done || lia). by apply IH.
Qed.

Lemma reachable_overall_is_mark b : reachable b → is_mark (overall_winner b).
Proof.
  induction 1 as [|b c b' Hb IH Hc]; [by left|].
  apply call_returns in Hc as (row & col & _ & _ & Hv & _ & ->).
  rewrite after_move_overall. destruct (has_line 9 _ _); [|done].
  by apply value_ok_spec.
Qed.

Lemma reachable_next_in_range b n : reachable b → next_subgrid b = Some n → 0 ≤ n < 9.
Proof.
  destruct 1 as [|b c b' Hb Hc]; [discriminate|].
  apply call_returns in Hc as (row & col & Hr & Hcol & _ & _ & ->).
  rewrite after_move_next. cbn zeta. destruct (_ || _); [discriminate|].
  intros [= <-].
  pose proof (Z.mod_pos_bound row 3 ltac:(lia)).
  pose proof (Z.mod_pos_bound col 3 ltac:(lia)). lia.
Qed.

(** X11: Every board that play can reach is a 9x9 grid with 9 statuses, and holds
    nothing but 0, 1 and 2 in its cells, its subgrid statuses and its
    overall winner; its constraint, when there is one, is a subgrid index
    in [0, 9). *)
Theorem reachable_board_is_well_formed (b : Board) :
  reachable b → wf_board b ∧ values_in_range b.
Proof.
  intros Hb. split; [by apply reachable_wf|].
  split; [by apply reachable_cells_are_marks|].
  split; [|split; [by apply reachable_overall_is_mark|]].
  - intros s Hs. rewrite (reachable_statuses b Hb s Hs). apply scan_subgrid_is_mark.
  - intros n. by apply reachable_next_in_range.
Qed.

Lemma reachable_board_is_well_formed_witness :
  reachable board_two_rows ∧ wf_board board_two_rows ∧ values_in_range board_two_rows.
Proof.
  split; [exact reachable_board_two_rows|].
  apply (reachable_board_is_well_formed board_two_rows). exact reachable_board_two_rows.
Defined.

(** X12: On every board that play can reach, a recorded overall winner has a
    full line of its marks on the grid: a row, a column or a diagonal of 9
    cells. *)
Theorem reachable_overall_winner_has_line (b : Board) :
  reachable b → overall_winner b ≠ 0 →
  overall_win_on_cells (board b) (overall_winner b).
Proof.
  induction 1 as [|b c b' Hb IH Hc]; [done|].
  pose proof (reachable_wf b Hb) as [Hwf _].
  pose proof (call_position c b b' Hc) as (r & k & Hr & Hk & Hempty & _ & Hboard).
  apply call_returns in Hc as (row & col & _ & _ & _ & _ & ->).
  rewrite after_move_overall.
  destruct (has_line 9 _ _) eqn:Hline; [intros _; by apply has_line_overall|].
  intros Hne. apply has_line_overall.
  apply (has_line_grows 9 (board b)); [done| |by apply has_line_overall, IH].
  intros i j Hi Hj Hcell. change (Z.of_nat 9) with 9 in Hi, Hj.
  rewrite Hboard. apply cell_set_cell_ne; try lia. intros [= -> ->]. contradiction.
Qed.

Lemma reachable_overall_winner_has_line_witness :
  reachable board_two_rows ∧ overall_winner board_two_rows ≠ 0
  ∧ overall_win_on_cells (board board_two_rows) (overall_winner board_two_rows).
Proof.
  split; [exact reachable_board_two_rows|]. split; [vm_compute; discriminate|].
  apply (reachable_overall_winner_has_line board_two_rows);
    [exact reachable_board_two_rows | vm_compute; discriminate].
Defined.

(** X13: A constraint never blocks the game: on every board that play can reach,
    the forced subgrid is neither won nor full, and it holds an empty cell
    at which [is_valid_move] answers [True]. *)
Theorem forced_subgrid_is_playable (b : Board) (n : Z) :
  reachable b → next_subgrid b = Some n →
  0 ≤ n < 9
  ∧ win_at (subgrid_wins b) n = 0
  ∧ is_subgrid_full b n = false
  ∧ ∃ row col,
      0 ≤ row < 9 ∧ 0 ≤ col < 9
      ∧ row / 3 * 3 + col / 3 = n
      ∧ is_valid_move b row col = Returns true.
Proof.
  intros Hb Hn.
  pose proof (reachable_next_in_range b n Hb Hn) as Hrange.
  pose proof (reachable_wf b Hb) as [Hwf _].
  assert (Hstate : is_subgrid_full b n = false ∧ win_at (subgrid_wins b) n = 0).
  { destruct Hb as [|b0 c b Hb0 Hc]; [discriminate|].
    apply call_returns in Hc as (row & col & _ & _ & _ & _ & ->).
    rewrite after_move_next in Hn. cbn zeta in Hn.
    destruct (is_subgrid_full _ _) eqn:Hfull; [discriminate|].
    destruct (win_at _ _ =? 0) eqn:Hwin; [|discriminate].
    injection Hn as <-. split; [done | by apply Z.eqb_eq]. }
  destruct Hstate as [Hfull Hwin].
  split; [done|]. split; [done|]. split; [done|].
  destruct (is_subgrid_full_false b n Hwf Hrange Hfull) as (i & j & Hi & Hj & Hcell).
  destruct (subgrid_of_cell n i j Hrange Hi Hj) as (Hr & Hc & Hsub).
  exists (n / 3 * 3 + i), (n mod 3 * 3 + j).
  split; [done|]. split; [done|]. split; [done|].
  apply is_valid_move_true_iff; [done..|].
  split; [exact Hcell|]. right. by rewrite Hsub.
Qed.

Lemma reachable_after_first_move : reachable (update_cell 0 1 init).2.
Proof.
  apply (reachable_call init (UpdateCell 0 1)); [constructor | vm_compute; reflexivity].
Qed.

Lemma forced_subgrid_is_playable_witness :
  reachable (update_cell 0 1 init).2
  ∧ next_subgrid (update_cell 0 1 init).2 = Some 0
  ∧ 0 ≤ 0 < 9
  ∧ win_at (subgrid_wins (update_cell 0 1 init).2) 0 = 0
  ∧ is_subgrid_full (update_cell 0 1 init).2 0 = false
  ∧ ∃ row col,
      0 ≤ row < 9 ∧ 0 ≤ col < 9
      ∧ row / 3 * 3 + col / 3 = 0
      ∧ is_valid_move (update_cell 0 1 init).2 row col = Returns true.
Proof.
  split; [exact reachable_after_first_move|]. split; [vm_compute; reflexivity|].
  apply (forced_subgrid_is_playable (update_cell 0 1 init).2 0);
    [exact reachable_after_first_move | vm_compute; reflexivity].
Defined.

(** ** Reading and replacing subgrids *)

(** X14: On a subgrid of the board [get_subgrid] is a 3x3 array whose cell
    (i, j) is cell (s // 3 * 3 + i, s % 3 * 3 + j) of the grid; every cell
    of the grid lies in exactly the subgrid row // 3 * 3 + col // 3, at
    place (row % 3, col % 3). *)
Theorem get_subgrid_cells (b : Board) (s : Z) :
  wf_grid (board b) → 0 ≤ s < 9 →
  shape_is_3x3 (get_subgrid b s) = true
  ∧ (∀ i j, 0 ≤ i < 3 → 0 ≤ j < 3 →
       cell (get_subgrid b s) i j = cell (board b) (s / 3 * 3 + i) (s mod 3 * 3 + j))
  ∧ (∀ row col, 0 ≤ row < 9 → 0 ≤ col < 9 → row / 3 * 3 + col / 3 = s →
       cell (get_subgrid b s) (row mod 3) (col mod 3) = cell (board b) row col).
Proof.
  intros Hwf Hs. split; [|split].
  - destruct b as [g w ow ns]. cbn [board] in *. explode_grid g Hwf.
    enum9 s Hs; reflexivity.
  - intros i j Hi Hj. by apply cell_get_subgrid.
  - intros row col Hr Hc <-.
    rewrite cell_get_subgrid; [|done|by apply subgrid_of_position|..];
      try (apply Z.mod_pos_bound; lia).
    f_equal; enum9 row Hr; enum9 col Hc; reflexivity.
Qed.

Lemma get_subgrid_cells_witness :
  wf_grid (board board_subgrid0) ∧ 0 ≤ 0 < 9
  ∧ shape_is_3x3 (get_subgrid board_subgrid0 0) = true
  ∧ (∀ i j, 0 ≤ i < 3 → 0 ≤ j < 3 →
       cell (get_subgrid board_subgrid0 0) i j
       = cell (board board_subgrid0) (0 / 3 * 3 + i) (0 mod 3 * 3 + j))
  ∧ (∀ row col, 0 ≤ row < 9 → 0 ≤ col < 9 → row / 3 * 3 + col / 3 = 0 →
       cell (get_subgrid board_subgrid0 0) (row mod 3) (col mod 3)
       = cell (board board_subgrid0) row col).
Proof.
  split; [exact wf_board_subgrid0|]. split; [lia|].
  apply (get_subgrid_cells board_subgrid0 0); [exact wf_board_subgrid0 | lia].
Defined.

(** X15: Past the last subgrid the slice is empty: for an index of 9 or more
    [get_subgrid] returns an array without rows, and [is_subgrid_full]
    answers [True] on it. *)
Theorem get_subgrid_past_the_end (b : Board) (s : Z) :
  wf_grid (board b) → 9 ≤ s →
  get_subgrid b s = [] ∧ is_subgrid_full b s = true.
Proof.
  intros [Hlen _] Hs.
  assert (E : get_subgrid b s = []).
  { unfold get_subgrid, np_slice. rewrite Hlen.
    assert (9 ≤ s / 3 * 3).
    { pose proof (Z.div_le_mono 9 s 3 ltac:(lia) Hs) as H.
      change (9 / 3) with 3 in H. lia. }
    unfold slice_bound.
    destruct (Z.ltb_spec (s / 3 * 3) 0); [lia|].
    destruct (Z.ltb_spec (s / 3 * 3 + 3) 0); [lia|].
    change (Z.of_nat 9) with 9.
    rewrite !Z.min_r by lia. rewrite Z.sub_diag. reflexivity. }
  split; [exact E|]. unfold is_subgrid_full. by rewrite E.
Qed.

Lemma get_subgrid_past_the_end_witness :
  wf_grid (board init) ∧ 9 ≤ 9
  ∧ get_subgrid init 9 = [] ∧ is_subgrid_full init 9 = true.
Proof.
  split; [exact wf_grid_init|]. split; [lia|].
  apply (get_subgrid_past_the_end init 9); [exact wf_grid_init | lia].
Defined.

Lemma set_subgrid_out_of_range s :
  s < -9 ∨ -3 ≤ s < 0 ∨ 9 ≤ s →
  (slice_bound 9 (s / 3 * 3 + 3) - slice_bound 9 (s / 3 * 3) =? 3) = false.
Proof.
  intros Hs. apply Z.eqb_neq.
  pose proof (Z.div_mod s 3 ltac:(lia)) as Hdm.
  pose proof (Z.mod_pos_bound s 3 ltac:(lia)) as Hm.
  unfold slice_bound.
  destruct (Z.ltb_spec (s / 3 * 3) 0); destruct (Z.ltb_spec (s / 3 * 3 + 3) 0); lia.
Qed.

(** X16: The exceptions of [set_subgrid]: an argument that is not 3x3 is refused
    first; then an index whose row slice is empty (below -9, from -3 to -1,
    or 9 and above) fails in the assignment.  In both cases the board is
    left as it was. *)
Theorem set_subgrid_raises (b : Board) (s : Z) (g : Grid) :
  (shape_is_3x3 g = false → set_subgrid s g b = (Raises InvalidSubgridShape, b))
  ∧ (shape_is_3x3 g = true → s < -9 ∨ -3 ≤ s < 0 ∨ 9 ≤ s →
     set_subgrid s g b = (Raises BroadcastError, b)).
Proof.
  split.
  - intros Hg. unfold set_subgrid. by rewrite Hg.
  - intros Hg Hs. unfold set_subgrid. rewrite Hg. cbn [negb].
    by rewrite (set_subgrid_out_of_range s Hs).
Qed.

(** X17: The indices -9 to -4 count from the end: [set_subgrid] with such an
    index does what it does with the index plus 9, one of the subgrids 0 to
    5. *)
Theorem set_subgrid_negative_index (b : Board) (s : Z) (g : Grid) :
  -9 ≤ s < -3 → set_subgrid s g b = set_subgrid (s + 9) g b.
Proof.
  intros Hs.
  assert (E : s = -9 ∨ s = -8 ∨ s = -7 ∨ s = -6 ∨ s = -5 ∨ s = -4) by lia.
  destruct E as [->|[->|[->|[->|[->| ->]]]]]; reflexivity.
Qed.

Lemma set_subgrid_negative_index_witness :
  -9 ≤ -5 < -3
  ∧ set_subgrid (-5) empty_subgrid board_subgrid0
    = set_subgrid (-5 + 9) empty_subgrid board_subgrid0.
Proof.
  split; [lia|]. apply (set_subgrid_negative_index board_subgrid0 (-5) empty_subgrid). lia.
Defined.

Lemma get_subgrid_shape b s :
  wf_grid (board b) → 0 ≤ s < 9 → shape_is_3x3 (get_subgrid b s) = true.
Proof.
  intros Hwf Hs. destruct b as [g w ow ns]. cbn [board] in *.
  explode_grid g Hwf. enum9 s Hs; reflexivity.
Qed.

Lemma int64_cast_row (row : list Z) : Forall is_int64 row → int64_cast <$> row = row.
Proof.
  induction 1 as [|x row Hx _ IH]; [done|].
  cbn. rewrite IH. f_equal. by apply int64_cast_int64.
Qed.

Lemma cast_rows_int64 (a : Grid) : int64_grid a → cast_rows a = a.
Proof.
  unfold cast_rows. induction 1 as [|row a Hrow _ IH]; [done|].
  cbn. rewrite IH. f_equal. by apply int64_cast_row.
Qed.

Lemma np_slice_Forall {A} (P : A → Prop) (l : list A) start stop :
  Forall P l → Forall P (np_slice l start stop).
Proof. intros H. unfold np_slice. by apply Forall_take, Forall_drop. Qed.

Lemma get_subgrid_int64 b s : int64_grid (board b) → int64_grid (get_subgrid b s).
Proof.
  intros H. unfold get_subgrid, int64_grid. apply Forall_fmap.
  eapply Forall_impl; [by apply np_slice_Forall|].
  intros row Hrow. by apply np_slice_Forall.
Qed.

(** X18: Writing back what [get_subgrid] returned changes nothing (the
    values read from the board are 64-bit integers already). *)
Theorem set_subgrid_get_subgrid (b : Board) (s : Z) :
  wf_grid (board b) → int64_grid (board b) → 0 ≤ s < 9 →
  set_subgrid s (get_subgrid b s) b = (Returns tt, b).
Proof.
  intros Hwf Hint Hs.
  rewrite set_subgrid_returns by (done || by apply get_subgrid_shape).
  rewrite cast_rows_int64 by by apply get_subgrid_int64.
  clear Hint. destruct b as [g w ow ns]. cbn [board] in *.
  explode_grid g Hwf. enum9 s Hs; reflexivity.
Qed.

Lemma int64_grid_board_two_rows : int64_grid (board board_two_rows).
Proof. repeat constructor; vm_compute; congruence. Qed.

Lemma set_subgrid_get_subgrid_witness :
  wf_grid (board board_two_rows) ∧ int64_grid (board board_two_rows) ∧ 0 ≤ 4 < 9
  ∧ set_subgrid 4 (get_subgrid board_two_rows 4) board_two_rows
    = (Returns tt, board_two_rows).
Proof.
  assert (Hwf : wf_grid (board board_two_rows))
    by (split; [reflexivity | by repeat constructor]).
  split; [exact Hwf|]. split; [exact int64_grid_board_two_rows|]. split; [lia|].
  apply (set_subgrid_get_subgrid board_two_rows 4);
    [exact Hwf | exact int64_grid_board_two_rows | lia].
Defined.

(** X19: Two replacements in a row: on the same subgrid the second one decides;
    on different subgrids the order does not matter. *)
Theorem set_subgrid_twice (b : Board) (s1 s2 : Z) (g1 g2 : Grid) :
  wf_grid (board b) → 0 ≤ s1 < 9 → 0 ≤ s2 < 9 →
  shape_is_3x3 g1 = true → shape_is_3x3 g2 = true →
  (s1 = s2 → (set_subgrid s1 g1;; set_subgrid s2 g2) b = set_subgrid s2 g2 b)
  ∧ (s1 ≠ s2 →
     (set_subgrid s1 g1;; set_subgrid s2 g2) b = (set_subgrid s2 g2;; set_subgrid s1 g1) b).
Proof.
  intros Hwf Hs1 Hs2 Hg1 Hg2.
  destruct (shape_is_3x3_inv g1 Hg1) as (a0 & a1 & a2 & a3 & a4 & a5 & a6 & a7 & a8 & ->).
  destruct (shape_is_3x3_inv g2 Hg2) as (c0 & c1 & c2 & c3 & c4 & c5 & c6 & c7 & c8 & ->).
  destruct b as [g w ow ns]. cbn [board] in *. explode_grid g Hwf.
  split.
  - intros <-. enum9 s1 Hs1; reflexivity.
  - intros Hne. enum9 s1 Hs1; enum9 s2 Hs2; first [reflexivity | contradiction].
Qed.

Lemma set_subgrid_twice_witness :
  wf_grid (board board_subgrid0) ∧ 0 ≤ 0 < 9 ∧ 0 ≤ 4 < 9
  ∧ shape_is_3x3 empty_subgrid = true ∧ shape_is_3x3 (full_subgrid 2) = true
  ∧ (0 = 4 →
     (set_subgrid 0 empty_subgrid;; set_subgrid 4 (full_subgrid 2)) board_subgrid0
     = set_subgrid 4 (full_subgrid 2) board_subgrid0)
  ∧ (0 ≠ 4 →
     (set_subgrid 0 empty_subgrid;; set_subgrid 4 (full_subgrid 2)) board_subgrid0
     = (set_subgrid 4 (full_subgrid 2);; set_subgrid 0 empty_subgrid) board_subgrid0).
Proof.
  split; [exact wf_board_subgrid0|]. split; [lia|]. split; [lia|].
  split; [reflexivity|]. split; [reflexivity|].
  apply (set_subgrid_twice board_subgrid0 0 4 empty_subgrid (full_subgrid 2));
    [exact wf_board_subgrid0 | lia | lia | reflexivity | reflexivity].
Defined.

(** ** Positions off the board *)

Lemma board_item_cases g row col :
  (-9 ≤ row < 9 → -9 ≤ col < 9 →
   board_item g row col = Returns (cell g (row mod 9) (col mod 9)))
  ∧ (- 2 ^ 63 ≤ row < 2 ^ 63 → - 2 ^ 63 ≤ col < 2 ^ 63 →
     ¬ (-9 ≤ row < 9 ∧ -9 ≤ col < 9) → board_item g row col = Raises IndexError)
  ∧ (2 ^ 63 ≤ row < 2 ^ 64 → board_item g row col = Raises OverflowError)
  ∧ (- 2 ^ 63 ≤ row < 2 ^ 63 → 2 ^ 63 ≤ col < 2 ^ 64 →
     board_item g row col = Raises OverflowError)
  ∧ (row < - 2 ^ 63 ∨ 2 ^ 64 ≤ row → board_item g row col = Raises IndexError)
  ∧ (- 2 ^ 63 ≤ row < 2 ^ 63 → col < - 2 ^ 63 ∨ 2 ^ 64 ≤ col →
     board_item g row col = Raises IndexError).
Proof.
  assert (Hmod : ∀ x, -9 ≤ x < 0 → x mod 9 = x + 9).
  { intros x Hx. symmetry. apply (Z.mod_unique x 9 (-1)); lia. }
  unfold board_item, np_intp, np_index. change (Z.opp 9) with (-9).
  repeat split; intros;
    destruct (Z.leb_spec (- 2 ^ 63) row), (Z.ltb_spec row (2 ^ 63)),
      (Z.leb_spec (2 ^ 63) row), (Z.ltb_spec row (2 ^ 64)),
      (Z.leb_spec (- 2 ^ 63) col), (Z.ltb_spec col (2 ^ 63)),
      (Z.leb_spec (2 ^ 63) col), (Z.ltb_spec col (2 ^ 64));
    cbn [andb]; try lia; try reflexivity;
    destruct (Z.leb_spec 0 row), (Z.ltb_spec row 9), (Z.leb_spec (-9) row),
      (Z.ltb_spec row 0);
    cbn [andb]; try lia; try reflexivity;
    destruct (Z.leb_spec 0 col), (Z.ltb_spec col 9), (Z.leb_spec (-9) col),
      (Z.ltb_spec col 0);
    cbn [andb]; try lia; try reflexivity;
    try rewrite (Hmod row) by lia; try rewrite (Hmod col) by lia;
    try rewrite (Z.mod_small row) by lia; try rewrite (Z.mod_small col) by lia;
    reflexivity.
Qed.

Lemma is_valid_move_free b row col :
  next_subgrid b = None →
  is_valid_move b row col =
    match board_item (board b) row col with
    | Returns x => Returns (x =? 0)
    | Raises e => Raises e
    end.
Proof. intros Hn. unfold is_valid_move. by rewrite Hn. Qed.

(** X20: With no constraint in force [is_valid_move] indexes the array
    directly.  Rows and columns from -9 to -1 count from the end, so for
    indices in [-9, 9) the answer is that of the cell (row % 9, col % 9).
    Otherwise the read fails: with [IndexError] when both indices fit 64
    bits, with [OverflowError] when the row lies in [2^63, 2^64), or the row
    fits 64 bits and the column lies in [2^63, 2^64), and with [IndexError]
    for a still larger or smaller integer met first. *)
Theorem is_valid_move_unconstrained (b : Board) (row col : Z) :
  next_subgrid b = None →
  (-9 ≤ row < 9 → -9 ≤ col < 9 →
   is_valid_move b row col = Returns (cell (board b) (row mod 9) (col mod 9) =? 0))
  ∧ (- 2 ^ 63 ≤ row < 2 ^ 63 → - 2 ^ 63 ≤ col < 2 ^ 63 →
     ¬ (-9 ≤ row < 9 ∧ -9 ≤ col < 9) → is_valid_move b row col = Raises IndexError)
  ∧ (2 ^ 63 ≤ row < 2 ^ 64 → is_valid_move b row col = Raises OverflowError)
  ∧ (- 2 ^ 63 ≤ row < 2 ^ 63 → 2 ^ 63 ≤ col < 2 ^ 64 →
     is_valid_move b row col = Raises OverflowError)
  ∧ (row < - 2 ^ 63 ∨ 2 ^ 64 ≤ row → is_valid_move b row col = Raises IndexError)
  ∧ (- 2 ^ 63 ≤ row < 2 ^ 63 → col < - 2 ^ 63 ∨ 2 ^ 64 ≤ col →
     is_valid_move b row col = Raises IndexError).
Proof.
  intros Hn. rewrite (is_valid_move_free b row col Hn).
  destruct (board_item_cases (board b) row col) as (H1 & H2 & H3 & H4 & H5 & H6).
  repeat split; intros.
  - by rewrite H1.
  - by rewrite H2.
  - by rewrite H3.
  - by rewrite H4.
  - by rewrite H5.
  - by rewrite H6.
Qed.

Lemma is_valid_move_unconstrained_witness :
  next_subgrid board_subgrid0 = None
  ∧ is_valid_move board_subgrid0 (-7) (-8)
    = Returns (cell (board board_subgrid0) (-7 mod 9) (-8 mod 9) =? 0)
  ∧ is_valid_move board_subgrid0 0 9 = Raises IndexError
  ∧ is_valid_move board_subgrid0 0 (2 ^ 63) = Raises OverflowError.
Proof.
  split; [reflexivity|].
  destruct (is_valid_move_unconstrained board_subgrid0 (-7) (-8) eq_refl) as (H1 & _).
  destruct (is_valid_move_unconstrained board_subgrid0 0 9 eq_refl) as (_ & H2 & _).
  destruct (is_valid_move_unconstrained board_subgrid0 0 (2 ^ 63) eq_refl)
    as (_ & _ & _ & H4 & _).
  split; [apply H1; lia|]. split; [apply H2; lia|]. apply H4; lia.
Defined.

(** X21: Whatever the constraint, [is_valid_move] never answers [True] for a
    row or a column below -9 or above 8: it answers [False] when the
    constraint already rejects the position, and otherwise the read of the
    array raises [IndexError] or [OverflowError]. *)
Theorem is_valid_move_off_the_array (b : Board) (row col : Z) :
  row < -9 ∨ 9 ≤ row ∨ col < -9 ∨ 9 ≤ col →
  is_valid_move b row col = Returns false
  ∨ is_valid_move b row col = Raises IndexError
  ∨ is_valid_move b row col = Raises OverflowError.
Proof.
  intros H.
  assert (E : ∃ e, board_item (board b) row col = Raises e
                   ∧ (e = IndexError ∨ e = OverflowError)).
  { destruct (board_item (board b) row col) as [x|e] eqn:Hitem.
    - exfalso. revert Hitem. unfold board_item, np_intp, np_index.
      change (Z.opp 9) with (-9).
      repeat match goal with
             | |- context [if ?c then _ else _] => destruct c eqn:?
             end; try discriminate; lia.
    - exists e. split; [done|]. by eapply board_item_raises. }
  destruct E as (e & E & He). unfold is_valid_move. rewrite E.
  destruct (next_subgrid b); [destruct (negb _); [by left|]|];
    destruct He as [-> | ->]; auto.
Qed.

Lemma is_valid_move_off_the_array_witness :
  (0 < -9 ∨ 9 ≤ 0 ∨ 2 ^ 63 < -9 ∨ 9 ≤ 2 ^ 63)
  ∧ (is_valid_move board_subgrid0 0 (2 ^ 63) = Returns false
     ∨ is_valid_move board_subgrid0 0 (2 ^ 63) = Raises IndexError
     ∨ is_valid_move board_subgrid0 0 (2 ^ 63) = Raises OverflowError).
Proof.
  split; [lia|]. apply (is_valid_move_off_the_array board_subgrid0 0 (2 ^ 63)). lia.
Defined.

(** ** Counting marks *)

Lemma alter_middle {A} (f : A → A) (l : list A) i x :
  l !! i = Some x → alter f i l = take i l ++ f x :: drop (S i) l.
Proof.
  revert i. induction l as [|y l IH]; intros [|i]; cbn; try done.
  - by intros [= ->].
  - intros H. f_equal. by apply IH.
Qed.

Lemma count_marks_middle (l1 l2 : list Z) (x : Z) :
  length (filter (λ y, y ≠ 0) (l1 ++ x :: l2)) =
  (length (filter (λ y, y ≠ 0%Z) (l1 ++ l2)) + if decide (x = 0%Z) then 0 else 1)%nat.
Proof.
  rewrite !list.filter_app, !length_app, list.filter_cons.
  destruct (decide (x ≠ 0)) as [Hx|Hx]; destruct (decide (x = 0)); cbn; try lia.
  all: by exfalso; tauto.
Qed.

Lemma marks_set_cell g r c v :
  wf_grid g → 0 ≤ r < 9 → 0 ≤ c < 9 → cell g r c = 0 →
  marks (set_cell g r c v) = (marks g + if decide (v = 0%Z) then 0 else 1)%nat.
Proof.
  intros [Hlen Hrows] Hr Hc. unfold cell, set_cell, marks.
  destruct (lookup_lt_is_Some_2 g (Z.to_nat r)) as [row Hrow]; [lia|].
  rewrite Forall_lookup in Hrows. pose proof (Hrows _ _ Hrow) as Hrowlen.
  destruct (lookup_lt_is_Some_2 row (Z.to_nat c)) as [x Hx]; [lia|].
  rewrite Hrow. cbn. rewrite Hx. cbn. intros ->.
  rewrite (alter_middle _ g _ row Hrow), insert_take_drop by lia.
  pose proof (take_drop_middle g _ row Hrow) as Eg.
  pose proof (take_drop_middle row _ 0 Hx) as Er.
  set (G1 := take (Z.to_nat r) g) in *. set (G2 := drop (S (Z.to_nat r)) g) in *.
  set (R1 := take (Z.to_nat c) row) in *. set (R2 := drop (S (Z.to_nat c)) row) in *.
  rewrite <- Eg, <- Er. rewrite !concat_app. cbn [concat].
  assert (E : ∀ y, concat G1 ++ (R1 ++ y :: R2) ++ concat G2
                   = (concat G1 ++ R1) ++ y :: (R2 ++ concat G2)).
  { intros y. rewrite <- !app_assoc. reflexivity. }
  rewrite !E, !count_marks_middle.
  destruct (decide (0 = 0)); [lia | done].
Qed.

Lemma marks_bounded g : wf_grid g → (marks g ≤ 81)%nat.
Proof.
  intros Hwf. unfold marks.
  etransitivity; [apply length_filter|].
  explode_grid g Hwf. cbn. lia.
Qed.

Lemma marks_after_call c b b' :
  wf_grid (board b) → call c b = (Returns tt, b') →
  marks (board b') = (marks (board b) + if decide (call_value c = 0%Z) then 0 else 1)%nat.
Proof.
  intros Hwf (r & k & Hr & Hk & Hempty & _ & ->)%call_position.
  by apply marks_set_cell.
Qed.

(** X22: Every successful call with the value 1 or 2 fills one empty cell and a
    call with the value 0 fills none: after a script of successful calls the
    number of marks on the grid is the number before plus the number of
    calls with a non-zero value, and it never exceeds 81. *)
Theorem marks_count_calls (calls : list Call) (b b' : Board) :
  wf_grid (board b) →
  play calls b = Some b' →
  marks (board b') =
    (marks (board b) + length (filter (λ c, call_value c ≠ 0%Z) calls))%nat
  ∧ (marks (board b') ≤ 81)%nat.
Proof.
  intros Hwf Hplay.
  assert (H : marks (board b') =
              (marks (board b) + length (filter (λ c, call_value c ≠ 0%Z) calls))%nat
              ∧ wf_grid (board b')).
  { revert b Hwf Hplay. induction calls as [|c rest IH]; intros b Hwf; cbn [play].
    - intros [= <-]. split; [cbn; lia | done].
    - destruct (call c b) as [[[]|e] b1] eqn:Hc; [|discriminate].
      intros Hplay.
      destruct (IH b1 (call_wf_grid c b b1 Hwf Hc) Hplay) as [E Hwf'].
      split; [|done]. rewrite E, (marks_after_call c b b1 Hwf Hc), list.filter_cons.
      destruct (decide (call_value c ≠ 0)), (decide (call_value c = 0)); cbn; try lia; tauto. }
  destruct H as [E Hwf']. split; [exact E | by apply marks_bounded].
Qed.

Lemma marks_count_calls_witness :
  wf_grid (board init)
  ∧ play game_two_rows init = Some board_two_rows
  ∧ marks (board board_two_rows) =
      (marks (board init) + length (filter (λ c, call_value c ≠ 0%Z) game_two_rows))%nat
  ∧ (marks (board board_two_rows) ≤ 81)%nat.
Proof.
  split; [exact wf_grid_init|]. split; [vm_compute; reflexivity|].
  apply (marks_count_calls game_two_rows init board_two_rows);
    [exact wf_grid_init | vm_compute; reflexivity].
Defined.

(** ** More on single moves *)

(** X23: A move touches the status of one subgrid only, the one it is played
    in. *)
Theorem update_cell_status_frame (b b' : Board) (index value s : Z) :
  wf_board b →
  update_cell index value b = (Returns tt, b') →
  0 ≤ s < 9 → s ≠ (index / 9) / 3 * 3 + (index mod 9) / 3 →
  win_at (subgrid_wins b') s = win_at (subgrid_wins b) s.
Proof.
  intros [_ Hlen] (Hi & _ & _ & ->)%update_cell_returns Hs Hne.
  destruct (index_row_col index Hi) as [Hr Hc].
  pose proof (subgrid_of_position _ _ Hr Hc).
  rewrite after_move_subgrid_wins. destruct (List.find _ _); [|done].
  rewrite win_at_insert by (done || lia). by rewrite decide_False.
Qed.

Lemma update_cell_status_frame_witness :
  wf_board board_subgrid0
  ∧ update_cell (flat 0 2) 1 board_subgrid0
    = (Returns tt, (update_cell (flat 0 2) 1 board_subgrid0).2)
  ∧ 0 ≤ 5 < 9 ∧ 5 ≠ (flat 0 2 / 9) / 3 * 3 + (flat 0 2 mod 9) / 3
  ∧ win_at (subgrid_wins (update_cell (flat 0 2) 1 board_subgrid0).2) 5
    = win_at (subgrid_wins board_subgrid0) 5.
Proof.
  split; [exact wf_board_board_subgrid0|]. split; [vm_compute; reflexivity|].
  split; [lia|]. split; [vm_compute; discriminate|].
  apply (update_cell_status_frame board_subgrid0 _ (flat 0 2) 1 5);
    [exact wf_board_board_subgrid0 | vm_compute; reflexivity | lia
    | vm_compute; discriminate].
Defined.



(** ** Text output *)

Lemma append_cancel_l (s a b : string) : s +:+ a = s +:+ b → a = b.
Proof. induction s as [|c s IH]; cbn; [done|]. intros [= H]. by apply IH. Qed.

Lemma append_assoc (a b c : string) : (a +:+ b) +:+ c = a +:+ (b +:+ c).
Proof.
  induction a as [|x a IH]; [done|].
  change (String x ((a +:+ b) +:+ c) = String x (a +:+ (b +:+ c))). by rewrite IH.
Qed.

Lemma split_at_space (s1 s2 r1 r2 : string) :
  no_space s1 → no_space s2 →
  s1 +:+ String " " r1 = s2 +:+ String " " r2 → s1 = s2 ∧ r1 = r2.
Proof.
  revert s2. induction s1 as [|c s1 IH]; intros [|d s2]; cbn.
  - by intros _ _ [= ->].
  - intros _ [Hd _] [= <- _]. done.
  - intros [Hc _] _ [= -> _]. done.
  - intros [_ H1] [_ H2] [= -> H]. destruct (IH s2 H1 H2 H) as [-> ->]. done.
Qed.

Lemma pretty_N_go_no_space (x : N) (s : string) :
  no_space s → no_space (pretty_N_go x s).
Proof.
  revert s. induction (N.lt_wf_0 x) as [x _ IH]; intros s Hs.
  assert (x = 0 ∨ 0 < x)%N as [->|Hx] by lia.
  - by rewrite pretty_N_go_0.
  - rewrite pretty_N_go_step by done. apply IH; [by apply N.div_lt|].
    split; [|done]. unfold pretty_N_char. by repeat case_match.
Qed.

Lemma pretty_N_no_space (x : N) : no_space (pretty x).
Proof.
  unfold pretty, pretty_N. case_decide; [by cbn|]. by apply pretty_N_go_no_space.
Qed.

Lemma pretty_Z_no_space (x : Z) : no_space (pretty x).
Proof.
  unfold pretty, pretty_Z. destruct x as [|p|p].
  - by cbn.
  - apply pretty_N_no_space.
  - cbn. split; [done|]. apply pretty_N_no_space.
Qed.

Lemma subgrid_report_inj i w w' : subgrid_report i w = subgrid_report i w' → w = w'.
Proof.
  unfold subgrid_report.
  destruct (Z.eqb_spec w 0) as [->|Hw], (Z.eqb_spec w' 0) as [->|Hw']; [done|..];
    intros H; apply append_cancel_l, append_cancel_l in H; cbn in H; try discriminate.
  injection H as H.
  apply split_at_space in H as [H _]; [|apply pretty_Z_no_space..].
  by apply (inj pretty).
Qed.

Lemma overall_report_inj w w' : overall_report w = overall_report w' → w = w'.
Proof.
  unfold overall_report.
  destruct (Z.eqb_spec w 0) as [->|Hw], (Z.eqb_spec w' 0) as [->|Hw']; [done|..];
    cbn; intros [= H]; try discriminate.
  by apply (inj pretty).
Qed.

Lemma imap_subgrid_report_inj (l1 l2 : list Z) (k : nat) :
  imap (λ i, subgrid_report (k + i)) l1 = imap (λ i, subgrid_report (k + i)) l2 → l1 = l2.
Proof.
  revert l2 k. induction l1 as [|x l1 IH]; intros [|y l2] k; try done.
  rewrite !imap_cons. intros [= Hh Ht]. f_equal.
  - by apply subgrid_report_inj in Hh.
  - apply (IH l2 (S k)).
    erewrite imap_ext; [erewrite (imap_ext _ _ l2)|]; [exact Ht|..];
      intros i z _; cbn; f_equal; lia.
Qed.

(** X25: The report of [display_winners] has one line per subgrid between its
    heading and the overall line, and it tells the records apart: two
    boards with the same report have the same subgrid statuses and the same
    overall winner. *)
Theorem display_winners_faithful (b1 b2 : Board) :
  length (display_winners b1) = (length (subgrid_wins b1) + 2)%nat
  ∧ (display_winners b1 = display_winners b2 →
     subgrid_wins b1 = subgrid_wins b2 ∧ overall_winner b1 = overall_winner b2).
Proof.
  unfold display_winners. split.
  - cbn. rewrite length_app, length_imap. cbn. lia.
  - cbn. intros [= H]. apply app_inj_tail in H as [Hl Ho]. split.
    + by apply (imap_subgrid_report_inj _ _ 0).
    + by apply overall_report_inj.
Qed.

Lemma append_String (c : ascii) (s t : string) : String c s +:+ t = String c (s +:+ t).
Proof. reflexivity. Qed.

Lemma append_empty_l (t : string) : "" +:+ t = t.
Proof. reflexivity. Qed.

Lemma row_display_inj (r1 r2 : list Z) :
  length r1 = 9%nat → length r2 = 9%nat →
  row_display r1 = row_display r2 → r1 = r2.
Proof.
  intros H1 H2. list_of_length r1 H1. list_of_length r2 H2.
  unfold row_display. cbv -[pretty pretty_Z String.append].
  rewrite !append_assoc. rewrite !append_String, !append_empty_l. intros H.
  repeat match goal with
         | H : _ +:+ String " " _ = _ +:+ String " " _ |- _ =>
             let E := fresh "E" in
             apply split_at_space in H as [E H]; [|apply pretty_Z_no_space..];
             apply (inj pretty) in E
         | H : String _ _ = String _ _ |- _ => injection H as H
         end.
  congruence.
Qed.

Lemma print_board_row b r :
  0 ≤ r < 9 →
  print_board b !! Z.to_nat (1 + r + r / 3)
  = Some (row_display (default [] (board b !! Z.to_nat r))).
Proof. intros Hr. enum9 r Hr; reflexivity. Qed.

(** X26: [print_board] prints grid row r in its call number 1 + r + r // 3
    (counting from 0, after the heading and with a rule after every third
    row), and the text tells the grids apart: two 9x9 boards with the same
    printout have the same cells. *)
Theorem print_board_faithful (b1 b2 : Board) :
  wf_grid (board b1) → wf_grid (board b2) →
  length (print_board b1) = 13%nat
  ∧ (∀ r, 0 ≤ r < 9 →
       print_board b1 !! Z.to_nat (1 + r + r / 3)
       = Some (row_display (default [] (board b1 !! Z.to_nat r))))
  ∧ (print_board b1 = print_board b2 → board b1 = board b2).
Proof.
  intros [Hlen1 Hrows1] [Hlen2 Hrows2]. split; [reflexivity|].
  split; [intros r Hr; by apply print_board_row|].
  intros Heq. apply list_eq. intros k.
  destruct (decide (k < 9)%nat) as [Hk|Hk].
  - destruct (lookup_lt_is_Some_2 (board b1) k) as [r1 E1]; [lia|].
    destruct (lookup_lt_is_Some_2 (board b2) k) as [r2 E2]; [lia|].
    rewrite E1, E2. f_equal.
    rewrite Forall_lookup in Hrows1, Hrows2.
    apply row_display_inj; [by eapply Hrows1 | by eapply Hrows2 |].
    pose proof (print_board_row b1 (Z.of_nat k) ltac:(lia)) as P1.
    pose proof (print_board_row b2 (Z.of_nat k) ltac:(lia)) as P2.
    rewrite Nat2Z.id, E1 in P1. rewrite Nat2Z.id, E2 in P2.
    rewrite Heq, P2 in P1. by injection P1.
  - rewrite !(proj2 (lookup_ge_None _ _)) by lia. done.
Qed.

Lemma wf_board_two_rows : wf_grid (board board_two_rows).
Proof. split; [reflexivity | by repeat constructor]. Qed.

Lemma print_board_faithful_witness :
  wf_grid (board board_two_rows) ∧ wf_grid (board board_subgrid0)
  ∧ length (print_board board_two_rows) = 13%nat
  ∧ (∀ r, 0 ≤ r < 9 →
       print_board board_two_rows !! Z.to_nat (1 + r + r / 3)
       = Some (row_display (default [] (board board_two_rows !! Z.to_nat r))))
  ∧ (print_board board_two_rows = print_board board_subgrid0 →
     board board_two_rows = board board_subgrid0).
Proof.
  split; [exact wf_board_two_rows|]. split; [exact wf_board_subgrid0|].
  apply (print_board_faithful board_two_rows board_subgrid0);
    [exact wf_board_two_rows | exact wf_board_subgrid0].
Defined.
